(** * scripts/validate_urls.py: URL extraction, validation and reporting

    A shallow embedding of the documentation URL checker.  Python [str]
    values are [string]s whose characters are read as code points below
    256; tuples are products; the [curl] subprocess is an explicit call
    node of a small program tree, so that the absence of a call or
    of an exception is a statement about the tree itself. *)

From Stdlib Require Import Bool Arith Lia List ZArith.
From Stdlib Require Import Ascii String DecimalString.
From Stdlib Require Import Permutation Sorted.
Import ListNotations.

Local Open Scope list_scope.
Local Open Scope string_scope.

(** ** Python string primitives *)

Module PyStr.

(** [c in chars] for a one-character [c]. *)
Fixpoint char_in (c : ascii) (chars : string) : bool :=
  match chars with
  | EmptyString => false
  | String d rest => Ascii.eqb c d || char_in c rest
  end.

(** [str.isspace] on one character, which is also the regular
    expression class [\s] of a [str] pattern, for code points below 256. *)
Definition is_space (c : ascii) : bool :=
  let n := nat_of_ascii c in
  (((9 <=? n) && (n <=? 13)) || ((28 <=? n) && (n <=? 32))
   || (n =? 133) || (n =? 160))%nat.

(** [s.startswith(p)]. *)
Fixpoint startswith (p s : string) : bool :=
  match p, s with
  | EmptyString, _ => true
  | String _ _, EmptyString => false
  | String a p', String b s' => Ascii.eqb a b && startswith p' s'
  end.

(** [needle in hay]. *)
Fixpoint str_in (needle hay : string) : bool :=
  startswith needle hay ||
  match hay with
  | EmptyString => false
  | String _ rest => str_in needle rest
  end.

(** [s[:n]] and [s[n:]] for [n >= 0]; a slice past the end is cut short. *)
Fixpoint take (n : nat) (s : string) : string :=
  match n, s with
  | S n', String c rest => String c (take n' rest)
  | _, _ => EmptyString
  end.

Fixpoint drop (n : nat) (s : string) : string :=
  match n, s with
  | S n', String _ rest => drop n' rest
  | _, _ => s
  end.

(** [s[a:b]] for [0 <= a]. *)
Definition slice (a b : nat) (s : string) : string := take (b - a) (drop a s).

(** Removal of the leading, resp. trailing, characters satisfying [p]. *)
Fixpoint lstrip_by (p : ascii -> bool) (s : string) : string :=
  match s with
  | EmptyString => EmptyString
  | String c rest => if p c then lstrip_by p rest else s
  end.

Fixpoint rstrip_by (p : ascii -> bool) (s : string) : string :=
  match s with
  | EmptyString => EmptyString
  | String c rest =>
      match rstrip_by p rest with
      | EmptyString => if p c then EmptyString else String c EmptyString
      | r => String c r
      end
  end.

(** [s.rstrip(chars)], [s.lstrip(chars)] and [s.strip()]. *)
Definition rstrip (chars s : string) : string := rstrip_by (fun c => char_in c chars) s.
Definition lstrip (chars s : string) : string := lstrip_by (fun c => char_in c chars) s.
Definition strip (s : string) : string := rstrip_by is_space (lstrip_by is_space s).

(** [str(n)] for a non-negative integer. *)
Definition str_of_nat (n : nat) : string := NilZero.string_of_uint (Nat.to_uint n).

(** Every character of [s] satisfies [p]. *)
Fixpoint all_chars (p : ascii -> bool) (s : string) : bool :=
  match s with
  | EmptyString => true
  | String c rest => p c && all_chars p rest
  end.

(** The last character of [s], if any. *)
Fixpoint last_char (s : string) : option ascii :=
  match s with
  | EmptyString => None
  | String c EmptyString => Some c
  | String _ rest => last_char rest
  end.

End PyStr.
Import PyStr.

(** ** Results, exceptions and the subprocess call *)

(** The three status tags [validate_url] returns. *)
Inductive Status := FAIL | PASS | SKIP.

Definition status_eqb (a b : Status) : bool :=
  match a, b with
  | FAIL, FAIL | PASS, PASS | SKIP, SKIP => true
  | _, _ => false
  end.

(** The tuple [(url, status, message)]. *)
Definition Result : Type := string * Status * string.

Definition r_url (r : Result) : string := fst (fst r).
Definition r_status (r : Result) : Status := snd (fst r).
Definition r_message (r : Result) : string := snd r.

(** A raised exception: its class name and [str(e)]. *)
Inductive exn := PyExc (cls msg : string).

(** What [subprocess.run(..., capture_output=True, text=True, timeout=t)]
    can do: complete, raise [subprocess.TimeoutExpired], or raise another
    [Exception] whose [str(e)] is [msg]. *)
Inductive run_outcome :=
| Completed (returncode : Z) (stdout stderr : string)
| TimeoutExpired
| RunError (msg : string).

(** A computation either returns, raises, or runs a subprocess and goes
    on with its outcome. *)
Inductive py (A : Type) : Type :=
| Return (a : A)
| Raise (e : exn)
| SubprocessRun (argv : list string) (timeout : nat) (k : run_outcome -> py A).

Arguments Return {A} a.
Arguments Raise {A} e.
Arguments SubprocessRun {A} argv timeout k.

(** Running a computation against a given behaviour of the subprocess. *)
Fixpoint run_py {A} (sub : list string -> nat -> run_outcome) (p : py A) : exn + A :=
  match p with
  | Return a => inr a
  | Raise e => inl e
  | SubprocessRun argv t k => run_py sub (k (sub argv t))
  end.

(** The computation contains no [Raise] node, whatever the subprocess does. *)
Fixpoint never_raises {A} (p : py A) : Prop :=
  match p with
  | Return _ => True
  | Raise _ => False
  | SubprocessRun _ _ k => forall o, never_raises (k o)
  end.

(** The computation runs no subprocess. *)
Definition no_subprocess {A} (p : py A) : Prop :=
  match p with
  | SubprocessRun _ _ _ => False
  | _ => True
  end.

(** ** [validate_url] *)

(** The part of [urllib.parse.urlparse]'s result the script reads. *)
Record ParseResult := { netloc : string }.

Definition placeholders : list string := ["{"; "<"; "..."; "example.com"].

Definition allowlist_patterns : list string := ["crates.io"].

(** [any(p in url for p in patterns)]. *)
Definition any_in (patterns : list string) (url : string) : bool :=
  existsb (fun p => str_in p url) patterns.

Definition curl_argv (url : string) (timeout : nat) : list string :=
  ["curl"; "-sS"; "--connect-timeout"; "5"; "--max-time"; str_of_nat timeout;
   "-o"; "/dev/null"; "-w"; "%{http_code}"; url].

(** The body of the [try] block once [subprocess.run] has finished,
    together with the two [except] clauses. *)
Definition classify (url : string) (timeout : nat) (o : run_outcome) : Result :=
  match o with
  | Completed returncode stdout stderr =>
      let status_code := strip stdout in
      if negb (returncode =? 0)%Z then
        (url, FAIL, "Curl error: " ++ take 100 stderr)
      else if startswith "2" status_code then
        (url, PASS, "HTTP " ++ status_code)
      else if startswith "3" status_code then
        (url, PASS, "HTTP " ++ status_code ++ " (redirect)")
      else if String.eqb status_code "000" then
        (url, FAIL, "Connection failed")
      else
        (url, FAIL, "HTTP " ++ status_code)
  | TimeoutExpired =>
      (url, FAIL, "Timeout after " ++ str_of_nat timeout ++ "s")
  | RunError msg =>
      (url, FAIL, "Exception: " ++ take 100 msg)
  end.

Section ValidateUrl.

(** [urllib.parse.urlparse]: it returns the parsed URL or raises. *)
Variable urlparse : string -> exn + ParseResult.

Definition validate_url (url : string) (timeout : nat) : py Result :=
  if any_in placeholders url then
    Return (url, SKIP, "Template/placeholder URL")
  else
    match urlparse url with
    | inl e => Raise e
    | inr parsed =>
        if String.eqb (netloc parsed) "" then
          Return (url, SKIP, "Relative or fragment URL")
        else if any_in allowlist_patterns url then
          Return (url, SKIP, "Allowlisted (blocks CI user agents)")
        else
          SubprocessRun (curl_argv url timeout) (timeout + 2)
            (fun o => Return (classify url timeout o))
    end.

End ValidateUrl.

(** *** The standard library's [urlparse]

    The part of CPython's [urllib.parse.urlsplit] that decides [netloc]:
    the scheme is split off at the first [:], a rest starting with [//]
    gives the network location up to the first of [/?#], and a network
    location with an unmatched square bracket raises
    [ValueError] (Invalid IPv6 URL).  The further checks of recent
    releases (validation of a bracketed host, the NFKC check of a
    non-ASCII host, removal of control characters) are left out; they do
    not apply to the inputs this model is evaluated on. *)

Definition scheme_chars : string :=
  "abcdefghijklmnopqrstuvwxyzABCDEFGHIJKLMNOPQRSTUVWXYZ0123456789+-.".

Definition is_ascii_alpha (c : ascii) : bool :=
  let n := nat_of_ascii c in
  (((65 <=? n) && (n <=? 90)) || ((97 <=? n) && (n <=? 122)))%nat.

(** The length of the longest prefix of [s] whose characters satisfy [p]. *)
Fixpoint span_len (p : ascii -> bool) (s : string) : nat :=
  match s with
  | EmptyString => 0
  | String c rest => if p c then S (span_len p rest) else 0
  end.

(** [s.find(c)] for a character [c]. *)
Fixpoint find_char (c : ascii) (s : string) : option nat :=
  match s with
  | EmptyString => None
  | String d rest => if Ascii.eqb c d then Some 0 else option_map S (find_char c rest)
  end.

Definition strip_scheme (url : string) : string :=
  match find_char ":" url, url with
  | Some (S i), String c0 _ =>
      if is_ascii_alpha c0 && all_chars (fun c => char_in c scheme_chars) (take (S i) url)
      then drop (S (S i)) url
      else url
  | _, _ => url
  end.

(** The first component of [_splitnetloc(url, start)]. *)
Definition splitnetloc (url : string) (start : nat) : string :=
  let rest := drop start url in
  take (span_len (fun c => negb (char_in c "/?#")) rest) rest.

Definition urlparse_py (url : string) : exn + ParseResult :=
  let url := strip_scheme url in
  if startswith "//" url then
    let nl := splitnetloc url 2 in
    if (str_in "[" nl && negb (str_in "]" nl)) || (str_in "]" nl && negb (str_in "[" nl))
    then inl (PyExc "ValueError" "Invalid IPv6 URL")
    else inr {| netloc := nl |}
  else inr {| netloc := "" |}.

(** ** URL extraction *)

(** One occurrence [(file_path, line_no, url)]. *)
Definition Occurrence : Type := string * nat * string.

Definition o_file (o : Occurrence) : string := fst (fst o).
Definition o_line (o : Occurrence) : nat := snd (fst o).
Definition o_url (o : Occurrence) : string := snd o.

Definition dquote : ascii := "034"%char.
Definition tab : ascii := "009"%char.
Definition newline : ascii := "010"%char.
Definition carriage_return : ascii := "013"%char.

(** *** [extract_markdown_link_url] *)

(** The [while] loop, run on the text from position [i] on; the result
    is the value of [i] when the loop is left. *)
Fixpoint scan_link (rest : string) (paren_depth i : nat) : nat :=
  match rest with
  | EmptyString => i
  | String c rest' =>
      if Ascii.eqb c "(" then scan_link rest' (S paren_depth) (S i)
      else if Ascii.eqb c ")" then
        match paren_depth with
        | 0 => i
        | S d => scan_link rest' d (S i)
        end
      else if char_in c (String " " (String tab (String newline EmptyString))) then i
      else scan_link rest' paren_depth (S i)
  end.

Definition extract_markdown_link_url (text : string) (start_pos : nat) : string :=
  let url_start := start_pos in
  slice url_start (scan_link (drop start_pos text) 0 start_pos) text.

(** *** The regular expressions *)

(** [re.search] for a closing bracket, an opening parenthesis and
    [https?://]: the start of the leftmost match in [s]. *)
Fixpoint search_md_link (s : string) : option nat :=
  if startswith "](http://" s || startswith "](https://" s then Some 0
  else
    match s with
    | EmptyString => None
    | String _ rest => option_map S (search_md_link rest)
    end.

(** The character class of [BARE_URL_PATTERN]: anything but white space,
    the two quote characters, angle brackets, a closing parenthesis and
    a closing square bracket. *)
Definition bare_char (c : ascii) : bool :=
  negb (is_space c || char_in c (String dquote "'<>)]")).

(** The length of the match of [BARE_URL_PATTERN] at the start of [s]. *)
Definition bare_match_at (s : string) : option nat :=
  if startswith "https://" s then
    match span_len bare_char (drop 8 s) with
    | 0 => None
    | n => Some (8 + n)
    end
  else if startswith "http://" s then
    match span_len bare_char (drop 7 s) with
    | 0 => None
    | n => Some (7 + n)
    end
  else None.

(** [[m.group(0) for m in BARE_URL_PATTERN.finditer(s)]]; [skip] counts
    the characters of [s] still inside the previous match. *)
Fixpoint finditer_from (skip : nat) (s : string) : list string :=
  match s with
  | EmptyString => []
  | String _ rest =>
      match skip with
      | S k => finditer_from k rest
      | 0 =>
          match bare_match_at s with
          | Some n => take n s :: finditer_from (n - 1) rest
          | None => finditer_from 0 rest
          end
      end
  end.

Definition BARE_URL_finditer (line : string) : list string := finditer_from 0 line.

(** [DOCSTRING_PATTERN.match(line)] for a single line. *)
Definition DOCSTRING_match (line : string) : bool :=
  let body := lstrip_by is_space line in
  startswith "///" body || startswith "//!" body.

(** *** The two scanning loops of a line *)

(** The markdown-link loop: the URLs it appends, in order.  Each round
    moves [i] forward by two or more, so [fuel] rounds are enough when
    [fuel] is the length of the line. *)
Fixpoint md_link_loop (fuel : nat) (line : string) (i : nat) : list string :=
  match fuel with
  | 0 => []
  | S fuel' =>
      if (i <? String.length line)%nat then
        match search_md_link (drop i line) with
        | Some start =>
            let url_start := i + start + 2 in
            let url := extract_markdown_link_url line url_start in
            url :: md_link_loop fuel' line (url_start + String.length url)
        | None => []
        end
      else []
  end.

Definition md_links (line : string) : list string :=
  md_link_loop (String.length line) line 0.

(** [any(url in existing_url for _, _, existing_url in urls)]. *)
Definition covered (url : string) (urls : list Occurrence) : bool :=
  existsb (fun o => str_in url (o_url o)) urls.

(** One round of the bare-URL loop; [strip_url] is the stripping the
    caller applies to [match.group(0)]. *)
Definition bare_step (strip_url : string -> string) (file_path : string) (line_no : nat)
    (urls : list Occurrence) (m : string) : list Occurrence :=
  let url := strip_url m in
  if negb (covered url urls) then (urls ++ [(file_path, line_no, url)])%list else urls.

Definition bare_phase (strip_url : string -> string) (file_path : string) (line_no : nat)
    (urls : list Occurrence) (line : string) : list Occurrence :=
  fold_left (bare_step strip_url file_path line_no) (BARE_URL_finditer line) urls.

Definition md_phase (file_path : string) (line_no : nat)
    (urls : list Occurrence) (line : string) : list Occurrence :=
  (urls ++ map (fun url => (file_path, line_no, url)) (md_links line))%list.

Definition scan_line (strip_url : string -> string) (file_path : string)
    (urls : list Occurrence) (numbered : nat * string) : list Occurrence :=
  let (line_no, line) := numbered in
  bare_phase strip_url file_path line_no (md_phase file_path line_no urls line) line.

(** The markdown extractor strips the trailing characters [.,;:]. *)
Definition md_strip (m : string) : string := rstrip ".,;:" m.

Definition rust_rstrip_chars : string := ".,;:'" ++ String dquote "`".

(** The Rust extractor strips the trailing characters [.,;:], the two
    quote characters and the backquote, and then a leading [<]. *)
Definition rust_strip (m : string) : string := lstrip "<" (rstrip rust_rstrip_chars m).

(** *** [str.splitlines] and [enumerate(..., 1)] *)

Definition is_linebreak (c : ascii) : bool :=
  let n := nat_of_ascii c in
  (((10 <=? n) && (n <=? 13)) || ((28 <=? n) && (n <=? 30)) || (n =? 133))%nat.

(** [after_cr] tells that the previous character was a carriage return,
    whose line feed belongs to the same line boundary. *)
Fixpoint splitlines_aux (after_cr : bool) (s : string) : list string :=
  match s with
  | EmptyString => []
  | String c rest =>
      if after_cr && Ascii.eqb c newline then splitlines_aux false rest
      else if is_linebreak c then EmptyString :: splitlines_aux (Ascii.eqb c carriage_return) rest
      else
        match splitlines_aux false rest with
        | [] => [String c EmptyString]
        | l :: ls => String c l :: ls
        end
  end.

Definition splitlines (content : string) : list string := splitlines_aux false content.

Definition enumerate1 {A} (l : list A) : list (nat * A) := combine (seq 1 (List.length l)) l.

(** *** The two extractors

    [read_text] is the outcome of [file_path.read_text];
    an exception there is printed and leaves the list empty. *)

Definition extract_urls_from_markdown (file_path : string) (read_text : exn + string)
    : list Occurrence :=
  match read_text with
  | inl _ => []
  | inr content =>
      fold_left (scan_line md_strip file_path) (enumerate1 (splitlines content)) []
  end.

Definition extract_urls_from_rust (file_path : string) (read_text : exn + string)
    : list Occurrence :=
  match read_text with
  | inl _ => []
  | inr content =>
      fold_left
        (fun urls numbered =>
           if DOCSTRING_match (snd numbered)
           then scan_line rust_strip file_path urls numbered
           else urls)
        (enumerate1 (splitlines content)) []
  end.

(** ** [main]: grouping, validation, sorting and the report *)

(** A location [(file_path, line_no)]. *)
Definition Location : Type := string * nat.

(** [url_locations]: a [defaultdict(list)], kept as the list of its items
    in insertion order, which is the order of [url_locations.keys()]. *)
Definition UrlLocations : Type := list (string * list Location).

(** [d[k].append(v)] *)
Fixpoint dd_append (d : UrlLocations) (k : string) (v : Location) : UrlLocations :=
  match d with
  | [] => [(k, [v])]
  | (k', vs) :: rest =>
      if String.eqb k' k then (k', (vs ++ [v])%list) :: rest
      else (k', vs) :: dd_append rest k v
  end.

(** [d[k]]; a missing key reads as the empty list. *)
Fixpoint dd_get (d : UrlLocations) (k : string) : list Location :=
  match d with
  | [] => []
  | (k', vs) :: rest => if String.eqb k' k then vs else dd_get rest k
  end.

Definition url_locations_of (all_urls : list Occurrence) : UrlLocations :=
  fold_left (fun d o => dd_append d (o_url o) (o_file o, o_line o)) all_urls [].

Definition unique_urls_of (all_urls : list Occurrence) : list string :=
  map fst (url_locations_of all_urls).

(** The calls handed to the thread pool, one per element of [unique_urls]. *)
Definition submitted (urlparse : string -> exn + ParseResult)
    (all_urls : list Occurrence) : list (py Result) :=
  map (fun url => validate_url urlparse url 10) (unique_urls_of all_urls).

(** [status_order] *)
Definition status_order (s : Status) : nat :=
  match s with
  | FAIL => 0
  | PASS => 1
  | SKIP => 2
  end.

(** The sort key [(status_order[x[1]], x[0])] and the order of two keys. *)
Definition sort_key (x : Result) : nat * string := (status_order (r_status x), r_url x).

Definition key_le (a b : nat * string) : bool :=
  ((fst a <? fst b)%nat || ((fst a =? fst b)%nat && String.leb (snd a) (snd b))).

(** [results.sort(key=...)]: the sort is stable, so it is the insertion
    that keeps an element before the later elements of the same key. *)
Fixpoint insert_result (x : Result) (l : list Result) : list Result :=
  match l with
  | [] => [x]
  | y :: rest =>
      if key_le (sort_key x) (sort_key y) then x :: y :: rest
      else y :: insert_result x rest
  end.

Fixpoint sort_results (l : list Result) : list Result :=
  match l with
  | [] => []
  | x :: rest => insert_result x (sort_results rest)
  end.

(** The lines [main] prints from the results on, one constructor for
    each [print] call, with the values it formats. *)
Inductive out_line :=
| PrintResultsHeader
| PrintFail (url : string)
| PrintReason (message : string)
| PrintFoundIn
| PrintLocation (file_path : string) (line_no : nat)
| PrintMore (n : nat)
| PrintBlank
| PrintPassed (pass_count : nat)
| PrintSkipped (skip_count : nat)
| PrintSummary (total unique passed failed skipped : nat)
| PrintFailed (fail_count : nat)
| PrintAllValid.

Record Counts := { fail_count : nat; pass_count : nat; skip_count : nat }.

(** What the result loop prints for one failed URL. *)
Definition fail_lines (url_locations : UrlLocations) (url message : string) : list out_line :=
  let locs := dd_get url_locations url in
  ([PrintFail url; PrintReason message; PrintFoundIn]
   ++ map (fun loc => PrintLocation (fst loc) (snd loc)) (firstn 3 locs)
   ++ (if (3 <? List.length locs)%nat then [PrintMore (List.length locs - 3)] else [])
   ++ [PrintBlank])%list.

(** What the result loop prints for one result. *)
Definition result_lines (url_locations : UrlLocations) (r : Result) : list out_line :=
  match r_status r with
  | FAIL => fail_lines url_locations (r_url r) (r_message r)
  | PASS => []
  | SKIP => []
  end.

Definition count_result (c : Counts) (r : Result) : Counts :=
  match r_status r with
  | FAIL => {| fail_count := S (fail_count c); pass_count := pass_count c; skip_count := skip_count c |}
  | PASS => {| fail_count := fail_count c; pass_count := S (pass_count c); skip_count := skip_count c |}
  | SKIP => {| fail_count := fail_count c; pass_count := pass_count c; skip_count := S (skip_count c) |}
  end.

(** One round of the result loop: the counters and the output so far. *)
Definition report_step (url_locations : UrlLocations)
    (st : Counts * list out_line) (r : Result) : Counts * list out_line :=
  (count_result (fst st) r, (snd st ++ result_lines url_locations r)%list).

(** [main] from the collected [results] on: what is printed, and the
    argument of [sys.exit]. *)
Definition main_report (all_urls : list Occurrence) (results : list Result)
    : list out_line * Z :=
  let url_locations := url_locations_of all_urls in
  let unique_urls := map fst url_locations in
  let sorted := sort_results results in
  let (c, out) :=
    fold_left (report_step url_locations) sorted
      ({| fail_count := 0; pass_count := 0; skip_count := 0 |}, [PrintResultsHeader]) in
  let out := (out
    ++ (if (0 <? pass_count c)%nat then [PrintPassed (pass_count c)] else [])
    ++ (if (0 <? skip_count c)%nat then [PrintSkipped (skip_count c)] else [])
    ++ [PrintSummary (List.length all_urls) (List.length unique_urls)
          (pass_count c) (fail_count c) (skip_count c)])%list in
  if (0 <? fail_count c)%nat
  then ((out ++ [PrintFailed (fail_count c)])%list, 1%Z)
  else ((out ++ [PrintAllValid])%list, 0%Z).

Definition exit_code (outcome : list out_line * Z) : Z := snd outcome.
Definition printed (outcome : list out_line * Z) : list out_line := fst outcome.

(** [future.result()] over the completed futures, in completion order:
    the first raised exception leaves the loop, and [main]. *)
Fixpoint collect_results (completed : list (exn + Result)) : exn + list Result :=
  match completed with
  | [] => inr []
  | inl e :: _ => inl e
  | inr r :: rest =>
      match collect_results rest with
      | inl e => inl e
      | inr rs => inr (r :: rs)
      end
  end.

(** A run of [main] on the extracted occurrences: the futures complete
    in some order, and [main] either reaches [sys.exit] or is left by an
    exception of a [validate_url] call. *)
Inductive main_run (urlparse : string -> exn + ParseResult)
    (sub : list string -> nat -> run_outcome) (all_urls : list Occurrence)
    : exn + (list out_line * Z) -> Prop :=
| main_exits (completed : list (exn + Result)) (results : list Result) :
    Permutation (map (run_py sub) (submitted urlparse all_urls)) completed ->
    collect_results completed = inr results ->
    main_run urlparse sub all_urls (inr (main_report all_urls results))
| main_raises (completed : list (exn + Result)) (e : exn) :
    Permutation (map (run_py sub) (submitted urlparse all_urls)) completed ->
    collect_results completed = inl e ->
    main_run urlparse sub all_urls (inl e).

(** The exit status of the process: the argument of [sys.exit] when
    [main] reaches it; when [main] is left by an exception, the
    interpreter prints the traceback and exits with status 1. *)
Definition process_exit_status (outcome : exn + (list out_line * Z)) : Z :=
  match outcome with
  | inr reported => exit_code reported
  | inl _ => 1%Z
  end.

(** ** Finding the files *)

(** [s.endswith(suffix)] *)
Definition endswith (suffix s : string) : bool :=
  (String.length suffix <=? String.length s)%nat
  && String.eqb (drop (String.length s - String.length suffix) s) suffix.

(** The set [excludes] of [find_markdown_files]. *)
Definition excludes : list string :=
  [".git"; "target"; "archived"; "testdata"; "tests"; ".sisyphus"; "reference"; "resources"].

(** [x in parts], for a set or a tuple of strings. *)
Definition str_mem (x : string) (parts : list string) : bool := existsb (String.eqb x) parts.

(** A path is the tuple of its [parts].  [rglob] is what
    [root.rglob] finds, each path relative to [root]: the paths the
    function sees are those of [root] followed by these. *)
Definition find_markdown_files (root : list string) (rglob : list (list string))
    : list (list string) :=
  filter (fun md_file => negb (existsb (fun part => str_mem part excludes) md_file))
    (map (fun rel => (root ++ rel)%list) rglob).

(** [src_exists] is [src_dir.exists()] and [rglob] what
    [src_dir.rglob] finds, relative to [src_dir]; [rs_file.name] is
    the last part of the path. *)
Definition find_rust_files (root : list string) (src_exists : bool)
    (rglob : list (list string)) : list (list string) :=
  if negb src_exists then []
  else
    filter (fun rs_file =>
              negb (endswith "_test.rs" (last rs_file EmptyString) || str_mem "tests" rs_file))
      (map (fun rel => (root ++ "src" :: rel)%list) rglob).

(** The two loops of [main] that fill [all_urls]: every file comes with
    its path as a string and the outcome of reading it. *)
Definition collect_all_urls (md_files rs_files : list (string * (exn + string)))
    : list Occurrence :=
  (flat_map (fun f => extract_urls_from_markdown (fst f) (snd f)) md_files
   ++ flat_map (fun f => extract_urls_from_rust (fst f) (snd f)) rs_files)%list.

(** ** Notions the properties are stated with *)

(** The occurrences a grouping stands for: every location of every
    key, with the key as its URL. *)
Definition ungroup (d : UrlLocations) : list Occurrence :=
  flat_map (fun kv => map (fun loc => (fst loc, snd loc, fst kv)) (snd kv)) d.

(** The URLs of the failure headings among printed lines, in order. *)
Fixpoint printed_fail_urls (out : list out_line) : list string :=
  match out with
  | [] => []
  | PrintFail url :: rest => url :: printed_fail_urls rest
  | _ :: rest => printed_fail_urls rest
  end.

Definition is_fail (r : Result) : bool := status_eqb (r_status r) FAIL.

(** A match of the bare-URL pattern: a scheme and a body of one or more
    characters of the class. *)
Definition bare_match (m : string) : Prop :=
  exists scheme body,
    m = scheme ++ body /\ (scheme = "http://" \/ scheme = "https://") /\
    body <> "" /\ all_chars bare_char body = true.

(** The string starts with one of the two schemes of the patterns. *)
Definition has_http_scheme (url : string) : Prop :=
  startswith "http://" url = true \/ startswith "https://" url = true.

(** [p] occurs in [s] as a substring. *)
Definition substring_of (p s : string) : Prop :=
  exists pre post, s = pre ++ p ++ post.

(** The URL contains one of the patterns. *)
Definition contains_any (patterns : list string) (url : string) : Prop :=
  exists p, In p patterns /\ substring_of p url.

(** The HTTP check succeeded: [curl] exited with code 0 and the status
    code it wrote, white space stripped, starts with 2 or 3. *)
Definition http_success (o : run_outcome) : Prop :=
  exists stdout stderr,
    o = Completed 0 stdout stderr /\
    (startswith "2" (strip stdout) = true \/ startswith "3" (strip stdout) = true).

(** In the words of the specification: the link target ends at the
    matching closing parenthesis that is not escaped, where a backslash
    escapes the character after it. *)
Fixpoint spec_link_target (rest : string) (depth : nat) : string :=
  match rest with
  | EmptyString => EmptyString
  | String c rest' =>
      if Ascii.eqb c "\" then
        match rest' with
        | EmptyString => String c EmptyString
        | String d rest'' => String c (String d (spec_link_target rest'' depth))
        end
      else if Ascii.eqb c "(" then String c (spec_link_target rest' (S depth))
      else if Ascii.eqb c ")" then
        match depth with
        | 0 => EmptyString
        | S d => String c (spec_link_target rest' d)
        end
      else String c (spec_link_target rest' depth)
  end.

(** Parentheses of [s] are balanced above [depth] open ones: no closing
    parenthesis of [s] lacks its opening one, and all are closed at the end. *)
Fixpoint balanced (s : string) (depth : nat) : bool :=
  match s with
  | EmptyString => (depth =? 0)%nat
  | String c rest =>
      if Ascii.eqb c "(" then balanced rest (S depth)
      else if Ascii.eqb c ")" then
        match depth with
        | 0 => false
        | S d => balanced rest d
        end
      else balanced rest depth
  end.

(** No character of [s] is a space, a tab or a newline. *)
Definition no_blank (s : string) : bool :=
  all_chars (fun c => negb (char_in c (String " " (String tab (String newline EmptyString))))) s.

(** The stripping of a bare match in the Rust extractor ([rust = true])
    or the markdown one, and the trailing characters each removes. *)
Definition strip_of (rust : bool) : string -> string :=
  if rust then rust_strip else md_strip.

Definition stripped_chars (rust : bool) : string :=
  if rust then rust_rstrip_chars else ".,;:".

(** The number of recorded occurrences of the URL [u]. *)
Definition count_url (u : string) (urls : list Occurrence) : nat :=
  List.length (filter (fun o => String.eqb (o_url o) u) urls).

(** The locations of the URL [u] among the occurrences, in order. *)
Definition locations_of (u : string) (all_urls : list Occurrence) : list Location :=
  map (fun o => (o_file o, o_line o)) (filter (fun o => String.eqb (o_url o) u) all_urls).

(** Equality of two sort keys. *)
Definition key_eqb (a b : nat * string) : bool :=
  (fst a =? fst b)%nat && String.eqb (snd a) (snd b).

(** In the list, the sort key decides the result: two results with the
    same status and URL are the same result. *)
Definition keys_determine (l : list Result) : Prop :=
  forall a b, In a l -> In b l -> sort_key a = sort_key b -> a = b.

(** The order of the sort key, as a relation on results. *)
Definition result_le (a b : Result) : Prop := key_le (sort_key a) (sort_key b) = true.

(** What holds of an occurrence recorded for a numbered line of the
    file [file_path]. *)
Definition recorded_at (file_path : string) (numbered : nat * string) (o : Occurrence) : Prop :=
  o_file o = file_path /\ o_line o = fst numbered /\
  substring_of (o_url o) (snd numbered) /\ has_http_scheme (o_url o).

(** Occurrences of two URLs, one of them at four locations. *)
Definition sample_occurrences : list Occurrence :=
  [("README.md", 3, "https://gone.example.org/");
   ("README.md", 9, "https://docs.rs/");
   ("docs/USAGE.md", 1, "https://gone.example.org/");
   ("docs/USAGE.md", 4, "https://gone.example.org/");
   ("src/lib.rs", 2, "https://gone.example.org/")].

(** A behaviour of [curl] for the sample: the first host does not
    resolve, every other check answers 200. *)
Definition sample_sub (argv : list string) (timeout : nat) : run_outcome :=
  if String.eqb (last argv EmptyString) "https://gone.example.org/"
  then Completed 6 "000" "curl: (6) Could not resolve host"
  else Completed 0 "200" "".

(** The results of the sample, in the order in which the second check
    completes first. *)
Definition sample_results : list Result :=
  [("https://docs.rs/", PASS, "HTTP 200");
   ("https://gone.example.org/", FAIL, "Curl error: curl: (6) Could not resolve host")].

(** * Properties *)

(** ** Strings *)

Lemma append_empty_r (s : string) : s ++ "" = s.
Proof. induction s as [|c s IH]; simpl; [reflexivity | now rewrite IH]. Qed.

Lemma append_assoc' (a b c : string) : (a ++ b) ++ c = a ++ (b ++ c).
Proof. induction a as [|x a IH]; simpl; [reflexivity | now rewrite IH]. Qed.

Lemma length_append' (a b : string) :
  String.length (a ++ b) = String.length a + String.length b.
Proof. induction a as [|x a IH]; simpl; [reflexivity | now rewrite IH]. Qed.

Lemma startswith_append (p t : string) : startswith p (p ++ t) = true.
Proof.
  induction p as [|a p IH]; simpl; [reflexivity|].
  now rewrite Ascii.eqb_refl, IH.
Qed.

Lemma startswith_iff (p s : string) :
  startswith p s = true <-> exists t, s = p ++ t.
Proof.
  split.
  - revert s. induction p as [|a p IH]; intros s H.
    + now exists s.
    + destruct s as [|b s]; simpl in H; [discriminate|].
      apply andb_true_iff in H as [Hab Hps].
      apply Ascii.eqb_eq in Hab. subst b.
      destruct (IH _ Hps) as [t ->]. now exists t.
  - intros [t ->]. apply startswith_append.
Qed.

Lemma str_in_startswith (needle hay : string) :
  startswith needle hay = true -> str_in needle hay = true.
Proof. intros H. destruct hay; simpl; rewrite H; reflexivity. Qed.

Lemma str_in_iff (needle hay : string) :
  str_in needle hay = true <-> substring_of needle hay.
Proof.
  unfold substring_of. split.
  - induction hay as [|c hay IH]; simpl; intros H.
    + rewrite orb_false_r in H. apply startswith_iff in H as [t Ht].
      exists "", t. exact Ht.
    + apply orb_true_iff in H as [H|H].
      * apply startswith_iff in H as [t Ht]. exists "", t. exact Ht.
      * destruct (IH H) as (pre & post & ->). now exists (String c pre), post.
  - intros (pre & post & ->).
    induction pre as [|c pre IH].
    + change ("" ++ needle ++ post) with (needle ++ post).
      apply str_in_startswith, startswith_append.
    + simpl. rewrite IH. apply orb_true_r.
Qed.

Lemma str_in_refl (s : string) : str_in s s = true.
Proof. apply str_in_iff. exists "", "". simpl. now rewrite append_empty_r. Qed.

Lemma any_in_iff (patterns : list string) (url : string) :
  any_in patterns url = true <-> contains_any patterns url.
Proof.
  unfold any_in, contains_any. rewrite existsb_exists.
  split; intros (p & Hp & H); exists p; split; auto; now apply str_in_iff.
Qed.

(** ** [validate_url] *)

Section ValidateUrlFacts.

Variable urlparse : string -> exn + ParseResult.

(** The three skip branches, and the condition of each. *)
Lemma validate_url_skip_kinds (url : string) (timeout : nat) (r : Result) :
  validate_url urlparse url timeout = Return r ->
  r_status r = SKIP ->
  contains_any placeholders url \/
  exists parsed, urlparse url = inr parsed /\
    (netloc parsed = "" \/ contains_any allowlist_patterns url).
Proof.
  unfold validate_url. intros H Hs.
  destruct (any_in placeholders url) eqn:Hp.
  - left. now apply any_in_iff.
  - right. destruct (urlparse url) as [e|parsed]; [discriminate|].
    exists parsed. split; [reflexivity|].
    destruct (String.eqb_spec (netloc parsed) "") as [Hn|Hn]; [now left|].
    destruct (any_in allowlist_patterns url) eqn:Ha.
    + right. now apply any_in_iff.
    + discriminate.
Qed.

(** Once [urlparse] has returned, nothing in [validate_url] raises. *)
Lemma validate_url_never_raises_after_parse (url : string) (timeout : nat) (parsed : ParseResult) :
  urlparse url = inr parsed -> never_raises (validate_url urlparse url timeout).
Proof.
  unfold validate_url. intros ->.
  destruct (any_in placeholders url); [exact I|].
  destruct (String.eqb (netloc parsed) ""); [exact I|].
  destruct (any_in allowlist_patterns url); [exact I|].
  intros o. exact I.
Qed.

(** The status of [classify] is [PASS] or [FAIL], and it is [PASS]
    exactly on a successful HTTP check. *)
Lemma classify_status (url : string) (timeout : nat) (o : run_outcome) :
  exists message,
    (http_success o /\ classify url timeout o = (url, PASS, message)) \/
    (~ http_success o /\ classify url timeout o = (url, FAIL, message)).
Proof.
  unfold http_success.
  destruct o as [rc out err| |msg]; unfold classify.
  - destruct (Z.eqb_spec rc 0) as [->|Hrc]; cbn [negb].
    + destruct (startswith "2" (strip out)) eqn:H2.
      { eexists. left. split; [|reflexivity]. exists out, err. auto. }
      destruct (startswith "3" (strip out)) eqn:H3.
      { eexists. left. split; [|reflexivity]. exists out, err. auto. }
      assert (Hno : ~ (exists stdout stderr : string,
                 Completed 0 out err = Completed 0 stdout stderr /\
                 (startswith "2" (strip stdout) = true \/
                  startswith "3" (strip stdout) = true))).
      { intros (o' & e' & Heq & [H|H]); inversion Heq; subst; congruence. }
      destruct (String.eqb (strip out) "000"); eexists; right; (split; [exact Hno | reflexivity]).
    + eexists. right. split; [|reflexivity].
      intros (o' & e' & Heq & _). inversion Heq. contradiction.
  - eexists. right. split; [|reflexivity]. intros (o' & e' & Heq & _). discriminate.
  - eexists. right. split; [|reflexivity]. intros (o' & e' & Heq & _). discriminate.
Qed.

End ValidateUrlFacts.

(** C4.  A URL that contains one of the placeholder markers (an opening
    brace, an opening angle bracket, three dots, or example.com) is
    classified SKIP by [validate_url]: the call returns at once, before
    the URL is parsed and without running [curl], so the result is the
    same for every behaviour of the subprocess. *)
Theorem validate_url_placeholder_skip
    (urlparse : string -> exn + ParseResult) (url : string) (timeout : nat) :
  contains_any placeholders url ->
  validate_url urlparse url timeout = Return (url, SKIP, "Template/placeholder URL") /\
  forall sub, run_py sub (validate_url urlparse url timeout)
              = inr (url, SKIP, "Template/placeholder URL").
Proof.
  intros H. apply any_in_iff in H.
  assert (E : validate_url urlparse url timeout
              = Return (url, SKIP, "Template/placeholder URL")).
  { unfold validate_url. now rewrite H. }
  split; [exact E|]. intros sub. now rewrite E.
Qed.

Lemma validate_url_placeholder_skip_witness :
  validate_url urlparse_py "https://example.com/{id}" 10
    = Return ("https://example.com/{id}", SKIP, "Template/placeholder URL") /\
  forall sub, run_py sub (validate_url urlparse_py "https://example.com/{id}" 10)
              = inr ("https://example.com/{id}", SKIP, "Template/placeholder URL").
Proof.
  apply (validate_url_placeholder_skip urlparse_py "https://example.com/{id}" 10).
  exists "example.com". split.
  - simpl. auto.
  - exists "https://", "/{id}". reflexivity.
Defined.

(** C5, as the code has it.  For a URL that reaches the HTTP check (no
    placeholder, a parsed URL with a network location, not allowlisted),
    [validate_url] runs [curl] once and returns PASS exactly when [curl]
    exited with code 0 and the stripped status code starts with 2 or 3;
    every other outcome (another status code, 000, a non-zero exit code
    whatever the status code, a timeout, any other exception) is FAIL. *)
Theorem validate_url_http_classification
    (urlparse : string -> exn + ParseResult) (url : string) (timeout : nat)
    (parsed : ParseResult) (sub : list string -> nat -> run_outcome) :
  any_in placeholders url = false ->
  urlparse url = inr parsed ->
  String.eqb (netloc parsed) "" = false ->
  any_in allowlist_patterns url = false ->
  exists message,
    (http_success (sub (curl_argv url timeout) (timeout + 2)) /\
     run_py sub (validate_url urlparse url timeout) = inr (url, PASS, message)) \/
    (~ http_success (sub (curl_argv url timeout) (timeout + 2)) /\
     run_py sub (validate_url urlparse url timeout) = inr (url, FAIL, message)).
Proof.
  intros Hp Hu Hn Ha. unfold validate_url. rewrite Hp, Hu, Hn, Ha. simpl.
  destruct (classify_status url timeout (sub (curl_argv url timeout) (timeout + 2)))
    as [message [[Hs Hc]|[Hs Hc]]]; exists message; [left|right]; now rewrite Hc.
Qed.

Lemma validate_url_http_classification_witness :
  exists message,
    (http_success ((fun _ _ => Completed 0 "301" "") (curl_argv "https://docs.rs/syn" 10) (10 + 2)) /\
     run_py (fun _ _ => Completed 0 "301" "") (validate_url urlparse_py "https://docs.rs/syn" 10)
       = inr ("https://docs.rs/syn", PASS, message)) \/
    (~ http_success ((fun _ _ => Completed 0 "301" "") (curl_argv "https://docs.rs/syn" 10) (10 + 2)) /\
     run_py (fun _ _ => Completed 0 "301" "") (validate_url urlparse_py "https://docs.rs/syn" 10)
       = inr ("https://docs.rs/syn", FAIL, message)).
Proof.
  apply (validate_url_http_classification urlparse_py "https://docs.rs/syn" 10
           {| netloc := "docs.rs" |} (fun _ _ => Completed 0 "301" ""));
    reflexivity.
Defined.

(** C5, as stated, fails: [curl] writes the status code 200 and then
    exits with code 28 (the transfer did not finish in time); the status
    code starts with 2, yet the URL is classified FAIL. *)
Lemma status_2xx_with_curl_error_is_fail :
  startswith "2" (strip "200") = true /\
  run_py (fun _ _ => Completed 28 "200" "curl: (28) Operation timed out")
         (validate_url urlparse_py "https://host.org/big.iso" 10)
    = inr ("https://host.org/big.iso", FAIL, "Curl error: curl: (28) Operation timed out").
Proof. split; reflexivity. Qed.

(** C6 fails on the code: [urlparse] is called outside the [try] block.
    The line below holds an IPv6 literal; the bare-URL pattern stops at
    the closing square bracket, the extracted URL has an unmatched
    bracket, [urlparse] raises [ValueError], and so does [validate_url]. *)
Theorem validate_url_raises_on_unmatched_bracket :
  extract_urls_from_markdown "README.md" (inr "Listening on http://[::1]:8080/ by default")
    = [("README.md", 1, "http://[::1")] /\
  validate_url urlparse_py "http://[::1" 10 = Raise (PyExc "ValueError" "Invalid IPv6 URL") /\
  (forall sub, run_py sub (validate_url urlparse_py "http://[::1" 10)
               = inl (PyExc "ValueError" "Invalid IPv6 URL")) /\
  ~ never_raises (validate_url urlparse_py "http://[::1" 10).
Proof.
  repeat split; try reflexivity.
  intros H. exact H.
Qed.

(** C10.  A URL of one of the three skipped kinds (a placeholder marker;
    a parsed URL with an empty network location; a parsed URL that
    contains an allowlisted domain) gets its SKIP result from the URL
    alone: [validate_url] is a plain return, no subprocess is run, and
    the triple is the same for any two behaviours of the subprocess. *)
Theorem validate_url_skip_is_pure
    (urlparse : string -> exn + ParseResult) (url : string) (timeout : nat) :
  (contains_any placeholders url \/
   exists parsed, urlparse url = inr parsed /\
     (netloc parsed = "" \/ contains_any allowlist_patterns url)) ->
  exists message,
    validate_url urlparse url timeout = Return (url, SKIP, message) /\
    no_subprocess (validate_url urlparse url timeout) /\
    forall sub1 sub2,
      run_py sub1 (validate_url urlparse url timeout) = inr (url, SKIP, message) /\
      run_py sub2 (validate_url urlparse url timeout) = inr (url, SKIP, message).
Proof.
  intros H.
  assert (E : exists message, validate_url urlparse url timeout = Return (url, SKIP, message)).
  { unfold validate_url.
    destruct (any_in placeholders url) eqn:Hp; [eauto|].
    destruct H as [H|(parsed & Hu & H)].
    - apply any_in_iff in H. congruence.
    - rewrite Hu.
      destruct (String.eqb_spec (netloc parsed) "") as [Hn|Hn]; [eauto|].
      destruct H as [H|H]; [contradiction|].
      apply any_in_iff in H. rewrite H. eauto. }
  destruct E as [message E]. exists message. rewrite E. simpl. auto.
Qed.

Lemma validate_url_skip_is_pure_witness :
  exists message,
    validate_url urlparse_py "https://crates.io/crates/syn" 10
      = Return ("https://crates.io/crates/syn", SKIP, message) /\
    no_subprocess (validate_url urlparse_py "https://crates.io/crates/syn" 10) /\
    forall sub1 sub2,
      run_py sub1 (validate_url urlparse_py "https://crates.io/crates/syn" 10)
        = inr ("https://crates.io/crates/syn", SKIP, message) /\
      run_py sub2 (validate_url urlparse_py "https://crates.io/crates/syn" 10)
        = inr ("https://crates.io/crates/syn", SKIP, message).
Proof.
  apply (validate_url_skip_is_pure urlparse_py "https://crates.io/crates/syn" 10).
  right. exists {| netloc := "crates.io" |}. split; [reflexivity|].
  right. exists "crates.io". split.
  - simpl. auto.
  - exists "https://", "/crates/syn". reflexivity.
Defined.

(** ** [extract_markdown_link_url] *)

Lemma drop_append_length (pre s : string) : drop (String.length pre) (pre ++ s) = s.
Proof. induction pre as [|c pre IH]; simpl; [now destruct s | exact IH]. Qed.

Lemma take_append_length (u s : string) : take (String.length u) (u ++ s) = u.
Proof.
  induction u as [|c u IH]; simpl; [now destruct s | now rewrite IH].
Qed.

(** On a balanced target without blanks, the loop runs to the closing
    parenthesis that follows the target and stops there. *)
Lemma scan_link_balanced (u post : string) :
  no_blank u = true ->
  forall depth i,
    balanced u depth = true ->
    scan_link (u ++ String ")" post) depth i = i + String.length u.
Proof.
  unfold no_blank.
  induction u as [|c u IH]; intros Hb depth i Hbal.
  - simpl in Hbal. apply Nat.eqb_eq in Hbal. subst depth. simpl. lia.
  - cbn [all_chars] in Hb. apply andb_true_iff in Hb as [Hc Hu].
    apply negb_true_iff in Hc.
    cbn [append scan_link balanced String.length] in *.
    destruct (Ascii.eqb c "(").
    + rewrite (IH Hu _ _ Hbal). lia.
    + destruct (Ascii.eqb c ")").
      * destruct depth as [|d]; [discriminate|].
        rewrite (IH Hu _ _ Hbal). lia.
      * rewrite Hc. rewrite (IH Hu _ _ Hbal). lia.
Qed.

Lemma extract_link_target (pre u post : string) :
  no_blank u = true ->
  balanced u 0 = true ->
  extract_markdown_link_url (pre ++ u ++ String ")" post) (String.length pre) = u.
Proof.
  intros Hb Hbal. unfold extract_markdown_link_url, slice.
  rewrite drop_append_length, (scan_link_balanced u post Hb 0 _ Hbal).
  replace (String.length pre + String.length u - String.length pre) with (String.length u) by lia.
  apply take_append_length.
Qed.

(** C3, as the code has it.  In a text [pre ++ u ++ ")" ++ post], where
    the link target [u] holds no space, tab or newline and its
    parentheses are balanced (to any depth), the extractor started just
    after the opening parenthesis, at the length of [pre], returns
    exactly [u]: it stops at the first closing parenthesis that no
    opening parenthesis of the target matches.  A backslash is an
    ordinary character of the target. *)
Theorem extract_markdown_link_url_balanced (pre u post : string) :
  no_blank u = true ->
  balanced u 0 = true ->
  extract_markdown_link_url (pre ++ u ++ String ")" post) (String.length pre) = u.
Proof.
  intros Hb Hbal. now apply extract_link_target.
Qed.

Lemma extract_markdown_link_url_balanced_witness :
  extract_markdown_link_url
    ("[Rust](" ++ "https://en.wikipedia.org/wiki/Rust_(programming_language)" ++ String ")" " page")
    (String.length "[Rust](")
  = "https://en.wikipedia.org/wiki/Rust_(programming_language)".
Proof.
  apply (extract_markdown_link_url_balanced "[Rust]("
           "https://en.wikipedia.org/wiki/Rust_(programming_language)" " page");
    reflexivity.
Defined.

(** C3, as stated, fails: the extractor knows no escape.  In the first
    link the closing parenthesis after the backslash ends the URL, where
    the specification reads on to the parenthesis that is not escaped;
    in the second one the blank ends it, before the closing parenthesis. *)
Lemma extract_markdown_link_url_ignores_escapes :
  extract_markdown_link_url "[t](http://a.org/x\)y) z" 4 = "http://a.org/x\" /\
  spec_link_target (drop 4 "[t](http://a.org/x\)y) z") 0 = "http://a.org/x\)y" /\
  extract_markdown_link_url "[t](http://a.org/x y)" 4 = "http://a.org/x" /\
  spec_link_target (drop 4 "[t](http://a.org/x y)") 0 = "http://a.org/x y".
Proof. repeat split; reflexivity. Qed.

Lemma startswith_head_neq (a c : ascii) (p s : string) :
  Ascii.eqb a c = false -> startswith (String a p) (String c s) = false.
Proof. intros H. cbn [startswith]. now rewrite H. Qed.

Lemma startswith_append_r (p s t : string) :
  startswith p s = true -> startswith p (s ++ t) = true.
Proof.
  intros H. apply startswith_iff in H as [r ->].
  rewrite append_assoc'. apply startswith_append.
Qed.

(** The search goes over a prefix without a closing square bracket. *)
Lemma search_md_link_skip (pre s : string) :
  all_chars (fun c => negb (Ascii.eqb "]" c)) pre = true ->
  search_md_link (pre ++ s) = option_map (Nat.add (String.length pre)) (search_md_link s).
Proof.
  induction pre as [|c pre IH]; intros H.
  - cbn [append String.length]. destruct (search_md_link s); reflexivity.
  - cbn [all_chars] in H. apply andb_true_iff in H as [Hc Hpre].
    apply negb_true_iff in Hc.
    cbn [append String.length search_md_link].
    rewrite !(startswith_head_neq _ _ _ _ Hc). cbn [orb].
    rewrite (IH Hpre). destruct (search_md_link s); reflexivity.
Qed.

(** X11.  The markdown-link loop of a line finds the first link of the
    line, the one after the first closing square bracket, and records for
    it the target the extractor returns: the whole URL up to the closing
    parenthesis, when the URL has no blank and balanced parentheses. *)
Lemma md_links_first_link (pre u post : string) :
  all_chars (fun c => negb (Ascii.eqb "]" c)) pre = true ->
  startswith "http://" u = true \/ startswith "https://" u = true ->
  no_blank u = true ->
  balanced u 0 = true ->
  exists rest, md_links (pre ++ "](" ++ u ++ String ")" post) = u :: rest.
Proof.
  intros Hpre Hhttp Hb Hbal.
  set (line := pre ++ "](" ++ u ++ String ")" post).
  assert (Hsearch : search_md_link line = Some (String.length pre + 0)).
  { unfold line. rewrite (search_md_link_skip _ _ Hpre).
    replace (search_md_link ("](" ++ u ++ String ")" post)) with (Some 0); [reflexivity|].
    symmetry. change ("](" ++ u ++ String ")" post) with (String "]" (String "(" (u ++ String ")" post))).
    cbn [search_md_link].
    destruct Hhttp as [H|H]; apply (startswith_append_r _ _ (String ")" post)) in H.
    - change (startswith "](http://" (String "]" (String "(" (u ++ String ")" post))))
        with (startswith "http://" (u ++ String ")" post)).
      now rewrite H.
    - change (startswith "](https://" (String "]" (String "(" (u ++ String ")" post))))
        with (startswith "https://" (u ++ String ")" post)).
      rewrite H. now rewrite orb_true_r. }
  assert (Hlen : String.length line = S (String.length line - 1)).
  { unfold line. rewrite !length_append'. simpl. lia. }
  assert (Hext : extract_markdown_link_url line (0 + (String.length pre + 0) + 2) = u).
  { replace (0 + (String.length pre + 0) + 2) with (String.length (pre ++ "](")).
    - unfold line. rewrite <- (append_assoc' pre "](").
      apply extract_link_target; assumption.
    - rewrite length_append'. simpl. lia. }
  unfold md_links.
  destruct (String.length line) as [|fuel] eqn:Hfuel; [discriminate Hlen|].
  cbn [md_link_loop]. rewrite Hfuel. cbn [Nat.ltb Nat.leb].
  change (drop 0 line) with line. rewrite Hsearch.
  cbv zeta. rewrite Hext. eexists. reflexivity.
Qed.

(** The fuel of the markdown-link loop never runs out: any two amounts
    that cover the rest of the line give the same list. *)
Lemma md_link_loop_fuel (line : string) (fuel : nat) :
  forall fuel' i,
    String.length line <= i + fuel ->
    String.length line <= i + fuel' ->
    md_link_loop fuel line i = md_link_loop fuel' line i.
Proof.
  induction fuel as [|fuel IH]; intros fuel' i H H'.
  - destruct fuel' as [|fuel']; [reflexivity|].
    cbn [md_link_loop].
    replace (i <? String.length line)%nat with false; [reflexivity|].
    symmetry. apply Nat.ltb_ge. lia.
  - destruct fuel' as [|fuel'].
    + cbn [md_link_loop].
      replace (i <? String.length line)%nat with false; [reflexivity|].
      symmetry. apply Nat.ltb_ge. lia.
    + cbn [md_link_loop].
      destruct (i <? String.length line)%nat; [|reflexivity].
      destruct (search_md_link (drop i line)) as [start|]; [|reflexivity].
      cbv zeta. f_equal. apply IH; lia.
Qed.

(** ** The bare-URL loop *)

Lemma rstrip_by_spec (p : ascii -> bool) (s : string) :
  exists suffix,
    s = rstrip_by p s ++ suffix /\
    all_chars p suffix = true /\
    forall c, last_char (rstrip_by p s) = Some c -> p c = false.
Proof.
  induction s as [|c s (suffix & Hs & Hall & Hlast)].
  - exists "". split; [reflexivity|]. split; [reflexivity | discriminate].
  - cbn [rstrip_by]. destruct (rstrip_by p s) as [|d r] eqn:E.
    + cbn [append] in Hs. subst s. destruct (p c) eqn:Hc.
      * exists (String c suffix). split; [reflexivity|].
        split; [cbn [all_chars]; now rewrite Hc, Hall | discriminate].
      * exists suffix. split; [reflexivity|]. split; [assumption|].
        intros c' H. cbn in H. now inversion H; subst.
    + exists suffix. split; [cbn [append] in *; now f_equal|].
      split; [assumption|]. intros c' H. apply Hlast. exact H.
Qed.

Lemma rstrip_by_head (p : ascii -> bool) (c : ascii) (s : string) :
  p c = false -> rstrip_by p (String c s) = String c (rstrip_by p s).
Proof. intros H. cbn [rstrip_by]. destruct (rstrip_by p s); now rewrite ?H. Qed.

Lemma bare_match_at_http (s : string) (n : nat) :
  bare_match_at s = Some n -> exists rest, take n s = String "h" rest.
Proof.
  unfold bare_match_at. intros H.
  destruct (startswith "https://" s) eqn:E.
  - apply startswith_iff in E as [t ->].
    destruct (span_len bare_char (drop 8 ("https://" ++ t))); [discriminate|].
    inversion H. eexists. reflexivity.
  - destruct (startswith "http://" s) eqn:E'; [|discriminate].
    apply startswith_iff in E' as [t ->].
    destruct (span_len bare_char (drop 7 ("http://" ++ t))); [discriminate|].
    inversion H. eexists. reflexivity.
Qed.

(** Every match of the bare-URL pattern starts with the letter h. *)
Lemma finditer_from_http (s : string) :
  forall skip m, In m (finditer_from skip s) -> exists rest, m = String "h" rest.
Proof.
  induction s as [|c s IH]; intros skip m H; [contradiction|].
  cbn [finditer_from] in H. destruct skip as [|k]; [|now apply (IH k)].
  destruct (bare_match_at (String c s)) as [n|] eqn:E.
  - destruct H as [<-|H]; [now apply bare_match_at_http | now apply (IH (n - 1))].
  - now apply (IH 0).
Qed.

(** On a match, the leading [<] of the Rust extractor has nothing to
    strip: both extractors only remove trailing characters. *)
Lemma strip_of_match (rust : bool) (line m : string) :
  In m (BARE_URL_finditer line) ->
  strip_of rust m = rstrip (stripped_chars rust) m.
Proof.
  intros H. destruct rust; [|reflexivity].
  destruct (finditer_from_http _ _ _ H) as [rest ->].
  unfold strip_of, stripped_chars, rust_strip, rstrip, lstrip.
  rewrite rstrip_by_head by reflexivity. reflexivity.
Qed.

Lemma bare_phase_in (strip_url : string -> string) (file_path : string) (line_no : nat)
    (ms : list string) :
  forall urls o,
    In o (fold_left (bare_step strip_url file_path line_no) ms urls) ->
    In o urls \/ exists m, In m ms /\ o = (file_path, line_no, strip_url m).
Proof.
  induction ms as [|m ms IH]; intros urls o H; [now left|].
  cbn [fold_left] in H. apply IH in H as [H|(m' & Hm' & ->)].
  - unfold bare_step in H. destruct (negb (covered (strip_url m) urls)).
    + apply in_app_or in H as [H|[<-|[]]]; [now left|].
      right. exists m. split; [now left | reflexivity].
    + now left.
  - right. exists m'. split; [now right | reflexivity].
Qed.

(** C7, as the code has it.  An occurrence the bare-URL loop records for
    a line is a match of the bare-URL pattern cut at its end only: the
    removed suffix consists of the stripped characters of the extractor
    (the characters [.,;:] in markdown files; these, the two quote
    characters and the backquote in Rust docstrings), and the recorded
    URL does not end in such a character, so nothing else is removed. *)
Theorem bare_url_trailing_strip (rust : bool) (file_path : string) (line_no : nat)
    (urls : list Occurrence) (line : string) (o : Occurrence) :
  In o (bare_phase (strip_of rust) file_path line_no urls line) ->
  ~ In o urls ->
  exists m suffix,
    In m (BARE_URL_finditer line) /\
    o = (file_path, line_no, strip_of rust m) /\
    m = strip_of rust m ++ suffix /\
    all_chars (fun c => char_in c (stripped_chars rust)) suffix = true /\
    forall c, last_char (strip_of rust m) = Some c -> char_in c (stripped_chars rust) = false.
Proof.
  intros H Hnew. apply bare_phase_in in H as [H|(m & Hm & ->)]; [contradiction|].
  destruct (rstrip_by_spec (fun c => char_in c (stripped_chars rust)) m)
    as (suffix & Hs & Hall & Hlast).
  exists m, suffix. rewrite (strip_of_match rust line m Hm). unfold rstrip.
  split; [assumption|]. split; [reflexivity|]. split; [assumption|].
  split; assumption.
Qed.

Lemma bare_url_trailing_strip_witness :
  exists m suffix,
    In m (BARE_URL_finditer "/// See `https://docs.rs/syn/`.") /\
    ("src/lib.rs", 7, "https://docs.rs/syn/") = ("src/lib.rs", 7, strip_of true m) /\
    m = strip_of true m ++ suffix /\
    all_chars (fun c => char_in c (stripped_chars true)) suffix = true /\
    forall c, last_char (strip_of true m) = Some c -> char_in c (stripped_chars true) = false.
Proof.
  apply (bare_url_trailing_strip true "src/lib.rs" 7 [] "/// See `https://docs.rs/syn/`."
           ("src/lib.rs", 7, "https://docs.rs/syn/")).
  - vm_compute. left. reflexivity.
  - simpl. intros H. exact H.
Defined.

(** C7, as stated, fails in Rust docstrings: the match below ends in a
    backquote and a full stop, and both are removed, though the backquote
    is none of the four punctuation characters. *)
Lemma rust_strip_removes_backquote :
  BARE_URL_finditer "/// See `https://docs.rs/syn/`." = ["https://docs.rs/syn/`."] /\
  char_in "`" ".,;:" = false /\
  extract_urls_from_rust "src/lib.rs" (inr "/// See `https://docs.rs/syn/`.")
    = [("src/lib.rs", 1, "https://docs.rs/syn/")].
Proof. repeat split; reflexivity. Qed.

Lemma covered_app (u : string) (l1 l2 : list Occurrence) :
  covered u (l1 ++ l2) = covered u l1 || covered u l2.
Proof. unfold covered. apply existsb_app. Qed.

Lemma covered_iff (u : string) (urls : list Occurrence) :
  covered u urls = true <->
  exists existing, In existing urls /\ substring_of u (o_url existing).
Proof.
  unfold covered. rewrite existsb_exists.
  split; intros (e & He & H); exists e; split; auto; now apply str_in_iff.
Qed.

(** A round of the bare-URL loop on a covered URL leaves the list as it is. *)
Lemma bare_step_covered (strip_url : string -> string) (file_path : string) (line_no : nat)
    (urls : list Occurrence) (m : string) :
  covered (strip_url m) urls = true ->
  bare_step strip_url file_path line_no urls m = urls.
Proof. intros H. unfold bare_step. now rewrite H. Qed.

(** What the bare-URL loop appends: URLs that nothing recorded before
    covers, each of them once. *)
Lemma bare_loop_appends (strip_url : string -> string) (file_path : string) (line_no : nat)
    (ms : list string) :
  forall urls, exists news,
    fold_left (bare_step strip_url file_path line_no) ms urls = (urls ++ news)%list /\
    (forall o, In o news -> covered (o_url o) urls = false) /\
    NoDup (map o_url news).
Proof.
  induction ms as [|m ms IH]; intros urls.
  - exists []. split; [now rewrite app_nil_r|]. split; [intros o []|constructor].
  - cbn [fold_left].
    destruct (covered (strip_url m) urls) eqn:Hc.
    + rewrite bare_step_covered by exact Hc. apply IH.
    + assert (bare_step strip_url file_path line_no urls m
              = (urls ++ [(file_path, line_no, strip_url m)])%list) as ->
        by (unfold bare_step; now rewrite Hc).
      destruct (IH (urls ++ [(file_path, line_no, strip_url m)])%list)
        as (news & Hfold & Hnew & Hnd).
      exists ((file_path, line_no, strip_url m) :: news).
      split; [now rewrite Hfold, <- app_assoc|].
      split.
      * intros o [<-|Ho]; [exact Hc|].
        specialize (Hnew o Ho). rewrite covered_app in Hnew.
        now apply orb_false_iff in Hnew.
      * cbn [map]. constructor; [|exact Hnd].
        intros Hin. apply in_map_iff in Hin as (o & Hu & Ho).
        specialize (Hnew o Ho). rewrite covered_app in Hnew.
        apply orb_false_iff in Hnew as [_ Hnew].
        unfold covered in Hnew. cbn [existsb] in Hnew. rewrite orb_false_r in Hnew.
        change (o_url (file_path, line_no, strip_url m)) with (strip_url m) in Hnew.
        rewrite Hu, str_in_refl in Hnew. discriminate.
Qed.

(** C9.  Take any bare match [m] of a line, the matches [ms1] before it
    and [ms2] after it.  When its turn comes the list holds everything
    extracted from the file so far: the occurrences of earlier lines
    ([urls]), the markdown links of this line, and the bare URLs of this
    line recorded for [ms1] ([earlier]).  If the stripped text of [m] is
    a substring of (or equal to) the URL of any of these, [m] is
    discarded: the scan of the line returns that list followed by
    occurrences of other URLs only.  Otherwise [m] is recorded, once, at
    this file and line, right after that list.  So a bare URL that the
    file's list already holds, from whatever line, is never recorded
    again. *)
Theorem covered_bare_url_is_discarded (strip_url : string -> string) (file_path : string)
    (urls : list Occurrence) (line_no : nat) (line : string) (ms1 : list string)
    (m : string) (ms2 : list string) :
  BARE_URL_finditer line = (ms1 ++ m :: ms2)%list ->
  exists earlier rest before,
    before = (urls ++ map (fun url => (file_path, line_no, url)) (md_links line) ++ earlier)%list /\
    fold_left (bare_step strip_url file_path line_no) ms1
      (md_phase file_path line_no urls line) = before /\
    ~ In (strip_url m) (map o_url rest) /\
    ((exists existing, In existing before /\ substring_of (strip_url m) (o_url existing)) ->
     scan_line strip_url file_path urls (line_no, line) = (before ++ rest)%list) /\
    (~ (exists existing, In existing before /\ substring_of (strip_url m) (o_url existing)) ->
     scan_line strip_url file_path urls (line_no, line)
     = (before ++ (file_path, line_no, strip_url m) :: rest)%list).
Proof.
  intros Hms. unfold scan_line, bare_phase. rewrite Hms, fold_left_app. cbn [fold_left].
  destruct (bare_loop_appends strip_url file_path line_no ms1
              (md_phase file_path line_no urls line)) as (earlier & Hfold1 & _ & _).
  rewrite Hfold1.
  set (before := (md_phase file_path line_no urls line ++ earlier)%list).
  assert (Ebefore : before
                    = (urls ++ map (fun url => (file_path, line_no, url)) (md_links line)
                       ++ earlier)%list)
    by (unfold before, md_phase; now rewrite <- app_assoc).
  destruct (covered (strip_url m) before) eqn:Hc.
  - rewrite (bare_step_covered _ _ _ _ _ Hc).
    destruct (bare_loop_appends strip_url file_path line_no ms2 before)
      as (rest & Hfold2 & Hnew & _).
    exists earlier, rest, before. split; [exact Ebefore|]. split; [reflexivity|].
    split; [|split].
    + intros Hin. apply in_map_iff in Hin as (o & Hu & Ho).
      specialize (Hnew o Ho). rewrite Hu in Hnew. congruence.
    + intros _. exact Hfold2.
    + intros Hno. exfalso. apply Hno. now apply covered_iff.
  - assert (Estep : bare_step strip_url file_path line_no before m
                    = (before ++ [(file_path, line_no, strip_url m)])%list)
      by (unfold bare_step; now rewrite Hc).
    rewrite Estep.
    destruct (bare_loop_appends strip_url file_path line_no ms2
                (before ++ [(file_path, line_no, strip_url m)])%list)
      as (rest & Hfold2 & Hnew & _).
    exists earlier, rest, before. split; [exact Ebefore|]. split; [reflexivity|].
    split; [|split].
    + intros Hin. apply in_map_iff in Hin as (o & Hu & Ho).
      specialize (Hnew o Ho). rewrite covered_app in Hnew.
      apply orb_false_iff in Hnew as [_ Hnew].
      unfold covered in Hnew. cbn [existsb] in Hnew. rewrite orb_false_r in Hnew.
      change (o_url (file_path, line_no, strip_url m)) with (strip_url m) in Hnew.
      rewrite Hu, str_in_refl in Hnew. discriminate.
    + intros Hyes. exfalso. apply covered_iff in Hyes. congruence.
    + intros _. rewrite Hfold2, <- app_assoc. reflexivity.
Qed.

Lemma covered_bare_url_is_discarded_witness :
  exists earlier rest before,
    before = ([("a.md", 1, "http://old.org/")]
              ++ map (fun url => ("a.md", 2, url))
                   (md_links "see http://a.com/foo and http://a.com then http://b.org")
              ++ earlier)%list /\
    fold_left (bare_step md_strip "a.md" 2) ["http://a.com/foo"]
      (md_phase "a.md" 2 [("a.md", 1, "http://old.org/")]
         "see http://a.com/foo and http://a.com then http://b.org") = before /\
    ~ In (md_strip "http://a.com") (map o_url rest) /\
    ((exists existing,
         In existing before /\ substring_of (md_strip "http://a.com") (o_url existing)) ->
     scan_line md_strip "a.md" [("a.md", 1, "http://old.org/")]
       (2, "see http://a.com/foo and http://a.com then http://b.org")
     = (before ++ rest)%list) /\
    (~ (exists existing,
           In existing before /\ substring_of (md_strip "http://a.com") (o_url existing)) ->
     scan_line md_strip "a.md" [("a.md", 1, "http://old.org/")]
       (2, "see http://a.com/foo and http://a.com then http://b.org")
     = (before ++ ("a.md", 2, md_strip "http://a.com") :: rest)%list).
Proof.
  apply (covered_bare_url_is_discarded md_strip "a.md" [("a.md", 1, "http://old.org/")] 2
           "see http://a.com/foo and http://a.com then http://b.org"
           ["http://a.com/foo"] "http://a.com" ["http://b.org"]).
  reflexivity.
Defined.

(** The scan of that line: the second bare URL is a substring of the
    first and is dropped; the third one is new. *)
Example scan_line_same_line_substring :
  scan_line md_strip "a.md" [("a.md", 1, "http://old.org/")]
    (2, "see http://a.com/foo and http://a.com then http://b.org")
  = [("a.md", 1, "http://old.org/"); ("a.md", 2, "http://a.com/foo");
     ("a.md", 2, "http://b.org")].
Proof. reflexivity. Qed.

(** *** A whole file: a bare URL is recorded at most once *)

Lemma count_url_app (u : string) (l1 l2 : list Occurrence) :
  count_url u (l1 ++ l2) = count_url u l1 + count_url u l2.
Proof. unfold count_url. now rewrite filter_app, length_app. Qed.

Lemma count_url_none (u : string) (l : list Occurrence) :
  (forall o, In o l -> o_url o <> u) -> count_url u l = 0.
Proof.
  unfold count_url. induction l as [|o l IH]; intros H; [reflexivity|].
  cbn [filter]. destruct (String.eqb_spec (o_url o) u) as [E|_].
  - exfalso. apply (H o); [now left | exact E].
  - apply IH. intros o' Ho'. apply H. now right.
Qed.

Lemma count_url_nodup (u : string) (l : list Occurrence) :
  NoDup (map o_url l) -> count_url u l <= 1.
Proof.
  induction l as [|o l IH]; intros H; [unfold count_url; simpl; lia|].
  cbn [map] in H. inversion H as [|x xs Hnotin Hnd]; subst.
  change (o :: l) with ([o] ++ l)%list. rewrite count_url_app.
  unfold count_url at 1. cbn [filter].
  destruct (String.eqb_spec (o_url o) u) as [E|_]; cbn [List.length].
  - rewrite count_url_none; [lia|].
    intros o' Ho' E'. apply Hnotin. rewrite E, <- E'. now apply in_map.
  - specialize (IH Hnd). lia.
Qed.

Lemma count_url_pos (u : string) (l : list Occurrence) :
  0 < count_url u l -> exists o, In o l /\ o_url o = u.
Proof.
  unfold count_url. induction l as [|o l IH]; cbn [filter]; intros H.
  - simpl in H. lia.
  - destruct (String.eqb_spec (o_url o) u) as [E|_].
    + exists o. split; [now left | exact E].
    + destruct (IH H) as (o' & Ho' & E'). exists o'. split; [now right | exact E'].
Qed.

Lemma count_url_links (u file_path : string) (line_no : nat) (links : list string) :
  count_url u (map (fun url => (file_path, line_no, url)) links)
  = count_occ string_dec links u.
Proof.
  unfold count_url. induction links as [|x links IH]; [reflexivity|].
  cbn [map filter count_occ].
  change (o_url (file_path, line_no, x)) with x.
  destruct (String.eqb_spec x u) as [E|E]; destruct (string_dec x u) as [E'|E'];
    try contradiction; cbn [List.length]; now rewrite IH.
Qed.

(** The scan of a line adds to the occurrences of [u] its markdown links
    to [u], and one bare occurrence only if there was none at all. *)
Lemma scan_line_count (strip_url : string -> string) (file_path u : string)
    (urls : list Occurrence) (numbered : nat * string) (K : nat) :
  count_url u urls <= K + 1 ->
  count_url u (scan_line strip_url file_path urls numbered)
  <= K + count_occ string_dec (md_links (snd numbered)) u + 1.
Proof.
  destruct numbered as [line_no line]. cbn [snd]. intros H.
  unfold scan_line, bare_phase.
  destruct (bare_loop_appends strip_url file_path line_no (BARE_URL_finditer line)
              (md_phase file_path line_no urls line)) as (news & -> & Hnew & Hnd).
  rewrite count_url_app. unfold md_phase in *. rewrite count_url_app, count_url_links.
  pose proof (count_url_nodup u news Hnd) as Hone.
  destruct (Nat.eq_dec (count_url u news) 0) as [E|E]; [lia|].
  assert (Hpos : 0 < count_url u news) by lia.
  apply count_url_pos in Hpos as (o & Ho & Hu).
  specialize (Hnew o Ho). rewrite Hu in Hnew.
  assert (Hzero : count_url u (urls ++ map (fun url => (file_path, line_no, url)) (md_links line)) = 0).
  { apply count_url_none. intros o' Ho' E'.
    assert (covered u (urls ++ map (fun url => (file_path, line_no, url)) (md_links line)) = true).
    { apply covered_iff. exists o'. split; [exact Ho'|].
      rewrite E'. apply str_in_iff, str_in_refl. }
    congruence. }
  rewrite count_url_app, count_url_links in Hzero. lia.
Qed.

Lemma fold_count_bound (step : list Occurrence -> nat * string -> list Occurrence)
    (links : string -> list string) (u : string) :
  (forall urls numbered K,
      count_url u urls <= K + 1 ->
      count_url u (step urls numbered) <= K + count_occ string_dec (links (snd numbered)) u + 1) ->
  forall numbered urls K,
    count_url u urls <= K + 1 ->
    count_url u (fold_left step numbered urls)
    <= K + count_occ string_dec (flat_map links (map snd numbered)) u + 1.
Proof.
  intros Hstep. induction numbered as [|x numbered IH]; intros urls K H.
  - cbn [fold_left map flat_map count_occ]. lia.
  - cbn [fold_left map flat_map]. rewrite count_occ_app.
    specialize (IH (step urls x) _ (Hstep urls x K H)). lia.
Qed.

Lemma map_snd_enumerate1 {A} (l : list A) : map snd (enumerate1 l) = l.
Proof.
  unfold enumerate1. generalize 1. induction l as [|x l IH]; intros n; [reflexivity|].
  cbn. now rewrite IH.
Qed.

(** The scan of a line keeps what was recorded and records every
    markdown link of the line. *)
Lemma scan_line_count_lower (strip_url : string -> string) (file_path u : string)
    (urls : list Occurrence) (numbered : nat * string) :
  count_url u urls + count_occ string_dec (md_links (snd numbered)) u
  <= count_url u (scan_line strip_url file_path urls numbered).
Proof.
  destruct numbered as [line_no line]. cbn [snd]. unfold scan_line, bare_phase.
  destruct (bare_loop_appends strip_url file_path line_no (BARE_URL_finditer line)
              (md_phase file_path line_no urls line)) as (news & -> & _ & _).
  rewrite count_url_app. unfold md_phase. rewrite count_url_app, count_url_links. lia.
Qed.

Lemma fold_count_lower (step : list Occurrence -> nat * string -> list Occurrence)
    (links : string -> list string) (u : string) :
  (forall urls numbered,
      count_url u urls + count_occ string_dec (links (snd numbered)) u
      <= count_url u (step urls numbered)) ->
  forall numbered urls,
    count_url u urls + count_occ string_dec (flat_map links (map snd numbered)) u
    <= count_url u (fold_left step numbered urls).
Proof.
  intros Hstep. induction numbered as [|x numbered IH]; intros urls.
  - cbn [fold_left map flat_map count_occ]. lia.
  - cbn [fold_left map flat_map]. rewrite count_occ_app.
    specialize (IH (step urls x)). specialize (Hstep urls x). lia.
Qed.

(** X12.  Among the occurrences [extract_urls_from_markdown] returns for
    a file, a URL appears once for each markdown link to it that the
    link loop finds in the lines of the file, and at most once more:
    however often it occurs bare, at most one bare occurrence is
    recorded. *)
Lemma markdown_bare_url_recorded_once (file_path content u : string) :
  count_occ string_dec (flat_map md_links (splitlines content)) u
  <= count_url u (extract_urls_from_markdown file_path (inr content))
  <= count_occ string_dec (flat_map md_links (splitlines content)) u + 1.
Proof.
  unfold extract_urls_from_markdown. split.
  - pose proof (fold_count_lower (scan_line md_strip file_path) md_links u
                  (fun urls numbered => scan_line_count_lower md_strip file_path u urls numbered)
                  (enumerate1 (splitlines content)) []) as H.
    rewrite map_snd_enumerate1 in H. exact H.
  - pose proof (fold_count_bound (scan_line md_strip file_path) md_links u
                  (fun urls numbered K => scan_line_count md_strip file_path u urls numbered K)
                  (enumerate1 (splitlines content)) [] 0) as H.
    rewrite map_snd_enumerate1 in H. apply H. unfold count_url. cbn [filter List.length]. lia.
Qed.

(** X13.  Among the occurrences [extract_urls_from_rust] returns for a
    file, a URL appears once for each markdown link to it that the link
    loop finds in the docstring lines of the file, and at most once
    more. *)
Lemma rust_bare_url_recorded_once (file_path content u : string) :
  count_occ string_dec
    (flat_map (fun line => if DOCSTRING_match line then md_links line else [])
       (splitlines content)) u
  <= count_url u (extract_urls_from_rust file_path (inr content))
  <= count_occ string_dec
       (flat_map (fun line => if DOCSTRING_match line then md_links line else [])
          (splitlines content)) u + 1.
Proof.
  unfold extract_urls_from_rust. split.
  - pose proof (fold_count_lower
                  (fun urls numbered =>
                     if DOCSTRING_match (snd numbered)
                     then scan_line rust_strip file_path urls numbered else urls)
                  (fun line => if DOCSTRING_match line then md_links line else []) u) as H.
    specialize (H (fun urls numbered =>
      match DOCSTRING_match (snd numbered) as b
        return count_url u urls
               + count_occ string_dec (if b then md_links (snd numbered) else []) u
               <= count_url u (if b then scan_line rust_strip file_path urls numbered else urls)
      with
      | true => scan_line_count_lower rust_strip file_path u urls numbered
      | false => ltac:(cbn [count_occ]; lia)
      end)).
    specialize (H (enumerate1 (splitlines content)) []).
    rewrite map_snd_enumerate1 in H. exact H.
  - pose proof (fold_count_bound
                  (fun urls numbered =>
                     if DOCSTRING_match (snd numbered)
                     then scan_line rust_strip file_path urls numbered else urls)
                  (fun line => if DOCSTRING_match line then md_links line else []) u) as H.
    specialize (H (fun urls numbered K Hc =>
      match DOCSTRING_match (snd numbered) as b
        return count_url u (if b then scan_line rust_strip file_path urls numbered else urls)
               <= K + count_occ string_dec (if b then md_links (snd numbered) else []) u + 1
      with
      | true => scan_line_count rust_strip file_path u urls numbered K Hc
      | false => ltac:(cbn [count_occ]; lia)
      end)).
    specialize (H (enumerate1 (splitlines content)) [] 0).
    rewrite map_snd_enumerate1 in H. apply H. unfold count_url. cbn [filter List.length]. lia.
Qed.

(** ** Grouping by URL *)

Lemma dd_get_append (d : UrlLocations) (k : string) (v : Location) (k' : string) :
  dd_get (dd_append d k v) k'
  = if String.eqb k k' then (dd_get d k' ++ [v])%list else dd_get d k'.
Proof.
  induction d as [|[k0 vs] d IH].
  - cbn [dd_append dd_get]. destruct (String.eqb k k'); reflexivity.
  - cbn [dd_append]. destruct (String.eqb_spec k0 k) as [->|Hk0].
    + cbn [dd_get]. destruct (String.eqb k k'); reflexivity.
    + cbn [dd_get]. rewrite IH.
      destruct (String.eqb_spec k0 k') as [->|_]; [|reflexivity].
      destruct (String.eqb_spec k k') as [->|_]; [contradiction | reflexivity].
Qed.

Lemma dd_keys_append (d : UrlLocations) (k : string) (v : Location) :
  (In k (map fst d) -> map fst (dd_append d k v) = map fst d) /\
  (~ In k (map fst d) -> map fst (dd_append d k v) = (map fst d ++ [k])%list).
Proof.
  induction d as [|[k0 vs] d [IHin IHout]].
  - split; [intros [] | reflexivity].
  - cbn [dd_append map fst]. destruct (String.eqb_spec k0 k) as [->|Hk0].
    + split; [reflexivity|]. intros H. exfalso. apply H. now left.
    + cbn [map fst]. split; intros H.
      * destruct H as [H|H]; [contradiction|]. now rewrite (IHin H).
      * rewrite IHout; [reflexivity|]. intros H'. apply H. now right.
Qed.

Section Grouping.

Let add (d : UrlLocations) (o : Occurrence) : UrlLocations :=
  dd_append d (o_url o) (o_file o, o_line o).

Lemma group_get (u : string) (all_urls : list Occurrence) :
  forall d, dd_get (fold_left add all_urls d) u = (dd_get d u ++ locations_of u all_urls)%list.
Proof.
  unfold locations_of.
  induction all_urls as [|o all_urls IH]; intros d.
  - cbn. now rewrite app_nil_r.
  - cbn [fold_left filter]. rewrite IH. unfold add. rewrite dd_get_append.
    destruct (String.eqb (o_url o) u); cbn [map]; [now rewrite <- app_assoc | reflexivity].
Qed.

Lemma group_keys_nodup (all_urls : list Occurrence) :
  forall d, NoDup (map fst d) -> NoDup (map fst (fold_left add all_urls d)).
Proof.
  induction all_urls as [|o all_urls IH]; intros d H; [exact H|].
  cbn [fold_left]. apply IH. unfold add.
  destruct (dd_keys_append d (o_url o) (o_file o, o_line o)) as [Hin Hout].
  destruct (in_dec string_dec (o_url o) (map fst d)) as [Hi|Hi].
  - now rewrite (Hin Hi).
  - rewrite (Hout Hi). apply NoDup_app; [exact H | repeat constructor; intros [] |].
    intros x Hx [<-|[]]. contradiction.
Qed.

Lemma group_keys_in (u : string) (all_urls : list Occurrence) :
  forall d, In u (map fst (fold_left add all_urls d)) <->
            In u (map fst d) \/ In u (map o_url all_urls).
Proof.
  induction all_urls as [|o all_urls IH]; intros d.
  - cbn. tauto.
  - cbn [fold_left map]. rewrite IH. unfold add.
    destruct (dd_keys_append d (o_url o) (o_file o, o_line o)) as [Hin Hout].
    destruct (in_dec string_dec (o_url o) (map fst d)) as [Hi|Hi].
    + rewrite (Hin Hi). cbn [In]. split; [tauto|].
      intros [H|[<-|H]]; tauto.
    + rewrite (Hout Hi), in_app_iff. cbn [In]. tauto.
Qed.

End Grouping.

(** [url_locations[url]] lists the locations of [url] in order. *)
Lemma url_locations_get (u : string) (all_urls : list Occurrence) :
  dd_get (url_locations_of all_urls) u = locations_of u all_urls.
Proof. unfold url_locations_of. now rewrite group_get. Qed.

(** [unique_urls] holds every URL of an occurrence, once. *)
Lemma unique_urls_nodup (all_urls : list Occurrence) : NoDup (unique_urls_of all_urls).
Proof. unfold unique_urls_of, url_locations_of. apply group_keys_nodup. constructor. Qed.

Lemma unique_urls_in (u : string) (all_urls : list Occurrence) :
  In u (unique_urls_of all_urls) <-> In u (map o_url all_urls).
Proof.
  unfold unique_urls_of, url_locations_of. rewrite group_keys_in. cbn. tauto.
Qed.

(** ** The report *)

Lemma report_loop (url_locations : UrlLocations) (rs : list Result) :
  forall c out,
    fold_left (report_step url_locations) rs (c, out)
    = (fold_left count_result rs c, (out ++ flat_map (result_lines url_locations) rs)%list).
Proof.
  induction rs as [|r rs IH]; intros c out.
  - cbn. now rewrite app_nil_r.
  - cbn [fold_left flat_map]. unfold report_step at 2. cbn [fst snd].
    rewrite IH. now rewrite <- app_assoc.
Qed.

Lemma fail_count_loop (rs : list Result) :
  forall c,
    0 < fail_count (fold_left count_result rs c) <->
    0 < fail_count c \/ Exists (fun r => r_status r = FAIL) rs.
Proof.
  induction rs as [|r rs IH]; intros c.
  - cbn. rewrite Exists_nil. tauto.
  - cbn [fold_left]. rewrite IH, Exists_cons. unfold count_result.
    destruct (r_status r); cbn [fail_count]; split; intros H.
    + right. left. reflexivity.
    + lia.
    + destruct H as [H|H]; [now left | now right; right].
    + destruct H as [H|[H|H]]; [now left | discriminate | now right].
    + destruct H as [H|H]; [now left | now right; right].
    + destruct H as [H|[H|H]]; [now left | discriminate | now right].
Qed.

(** What [main] prints and returns, the loop unfolded. *)
Lemma main_report_eq (all_urls : list Occurrence) (results : list Result) :
  exists tail,
    printed (main_report all_urls results)
    = (PrintResultsHeader
        :: flat_map (result_lines (url_locations_of all_urls)) (sort_results results)
        ++ tail)%list /\
    exit_code (main_report all_urls results)
    = if (0 <? fail_count (fold_left count_result (sort_results results)
                            {| fail_count := 0; pass_count := 0; skip_count := 0 |}))%nat
      then 1%Z else 0%Z.
Proof.
  unfold main_report. rewrite report_loop.
  set (c := fold_left count_result (sort_results results) _).
  destruct (0 <? fail_count c)%nat; eexists; cbn [printed exit_code fst snd];
    (split; [|reflexivity]); cbn [app]; rewrite <- !app_assoc; reflexivity.
Qed.

(** ** The sort *)

Lemma ascii_compare_lt_trans (x y z : ascii) :
  Ascii.compare x y = Lt -> Ascii.compare y z = Lt -> Ascii.compare x z = Lt.
Proof.
  unfold Ascii.compare. rewrite !N.compare_lt_iff. apply N.lt_trans.
Qed.

Lemma string_compare_le_trans (a : string) :
  forall b c,
    String.compare a b <> Gt -> String.compare b c <> Gt -> String.compare a c <> Gt.
Proof.
  induction a as [|x a IH]; intros [|y b] [|z c]; cbn [String.compare];
    try congruence.
  destruct (Ascii.compare x y) eqn:Exy; try congruence;
    destruct (Ascii.compare y z) eqn:Eyz; try congruence.
  - apply Ascii.compare_eq_iff in Exy, Eyz. subst.
    replace (Ascii.compare z z) with Eq
      by (symmetry; unfold Ascii.compare; apply N.compare_refl).
    apply IH.
  - apply Ascii.compare_eq_iff in Exy. subst. rewrite Eyz. congruence.
  - apply Ascii.compare_eq_iff in Eyz. subst. rewrite Exy. congruence.
  - rewrite (ascii_compare_lt_trans _ _ _ Exy Eyz). congruence.
Qed.

Lemma string_leb_trans (a b c : string) :
  String.leb a b = true -> String.leb b c = true -> String.leb a c = true.
Proof.
  unfold String.leb. intros Hab Hbc.
  pose proof (string_compare_le_trans a b c) as H.
  destruct (String.compare a b); destruct (String.compare b c);
    destruct (String.compare a c); try reflexivity; try discriminate;
    exfalso; apply H; congruence.
Qed.

Lemma string_leb_refl (a : string) : String.leb a a = true.
Proof. destruct (String.leb_total a a); assumption. Qed.

Lemma key_le_trans (a b c : nat * string) :
  key_le a b = true -> key_le b c = true -> key_le a c = true.
Proof.
  unfold key_le. destruct a as [n1 s1], b as [n2 s2], c as [n3 s3]. cbn [fst snd].
  rewrite !orb_true_iff, !andb_true_iff, !Nat.ltb_lt, !Nat.eqb_eq.
  intros [H|[H H']] [G|[G G']]; try (left; lia).
  right. split; [lia|]. eapply string_leb_trans; eassumption.
Qed.

Lemma key_le_total (a b : nat * string) : key_le a b = true \/ key_le b a = true.
Proof.
  unfold key_le. destruct a as [n1 s1], b as [n2 s2]. cbn [fst snd].
  rewrite !orb_true_iff, !andb_true_iff, !Nat.ltb_lt, !Nat.eqb_eq.
  destruct (Nat.lt_trichotomy n1 n2) as [H|[H|H]]; [now left; left | | now right; left].
  destruct (String.leb_total s1 s2); [left | right]; right; split; auto.
Qed.

Lemma key_le_antisym (a b : nat * string) :
  key_le a b = true -> key_le b a = true -> a = b.
Proof.
  unfold key_le. destruct a as [n1 s1], b as [n2 s2]. cbn [fst snd].
  rewrite !orb_true_iff, !andb_true_iff, !Nat.ltb_lt, !Nat.eqb_eq.
  intros [H|[H H']] [G|[G G']]; try lia.
  f_equal; [exact H | now apply String.leb_antisym].
Qed.

Lemma insert_result_perm (x : Result) (l : list Result) :
  Permutation (insert_result x l) (x :: l).
Proof.
  induction l as [|y l IH]; cbn [insert_result]; [reflexivity|].
  destruct (key_le (sort_key x) (sort_key y)); [reflexivity|].
  rewrite IH. apply perm_swap.
Qed.

Lemma sort_results_perm (l : list Result) : Permutation (sort_results l) l.
Proof.
  induction l as [|x l IH]; cbn [sort_results]; [reflexivity|].
  rewrite insert_result_perm. now constructor.
Qed.

Lemma insert_result_sorted (x : Result) (l : list Result) :
  StronglySorted result_le l -> StronglySorted result_le (insert_result x l).
Proof.
  induction l as [|y l IH]; intros H; cbn [insert_result].
  - repeat constructor.
  - inversion H as [|y' l' Hs Hall]; subst.
    destruct (key_le (sort_key x) (sort_key y)) eqn:E.
    + constructor; [exact H|]. constructor; [exact E|].
      eapply Forall_impl; [|exact Hall]. intros z Hz.
      unfold result_le in *. eapply key_le_trans; eassumption.
    + constructor; [now apply IH|].
      assert (Hyx : result_le y x).
      { unfold result_le. destruct (key_le_total (sort_key x) (sort_key y)); congruence. }
      eapply Permutation_Forall; [symmetry; apply insert_result_perm|].
      now constructor.
Qed.

Lemma sort_results_sorted (l : list Result) : StronglySorted result_le (sort_results l).
Proof.
  induction l as [|x l IH]; cbn [sort_results]; [constructor|].
  now apply insert_result_sorted.
Qed.

(** Two sorted lists with the same elements are equal, if no two
    different elements are each below the other. *)
Lemma sorted_perm_unique (l1 : list Result) :
  forall l2,
    StronglySorted result_le l1 ->
    StronglySorted result_le l2 ->
    Permutation l1 l2 ->
    (forall a b, In a l1 -> In b l1 -> result_le a b -> result_le b a -> a = b) ->
    l1 = l2.
Proof.
  induction l1 as [|a l1 IH]; intros l2 H1 H2 Hp Hanti.
  - apply Permutation_nil in Hp. now subst.
  - destruct l2 as [|b l2]; [symmetry in Hp; now apply Permutation_nil in Hp|].
    inversion H1 as [|? ? Hs1 Hall1]; subst.
    inversion H2 as [|? ? Hs2 Hall2]; subst.
    assert (Eab : a = b).
    { assert (Ha : In a (b :: l2)) by (eapply Permutation_in; [exact Hp | now left]).
      assert (Hb : In b (a :: l1)) by (eapply Permutation_in; [symmetry; exact Hp | now left]).
      destruct Ha as [Ha|Ha]; [now symmetry|].
      destruct Hb as [Hb|Hb]; [assumption|].
      rewrite Forall_forall in Hall1, Hall2.
      apply Hanti; [now left | now right | now apply Hall1 | now apply Hall2]. }
    subst b. f_equal. apply Permutation_cons_inv in Hp.
    apply IH; try assumption.
    intros x y Hx Hy. apply Hanti; now right.
Qed.

Lemma nodup_map_inj {A B} (f : A -> B) (l : list A) :
  NoDup (map f l) -> forall a b, In a l -> In b l -> f a = f b -> a = b.
Proof.
  induction l as [|x l IH]; intros H a b Ha Hb E; [contradiction|].
  cbn [map] in H. inversion H as [|? ? Hnotin Hnd]; subst.
  destruct Ha as [<-|Ha], Hb as [<-|Hb].
  - reflexivity.
  - exfalso. apply Hnotin. rewrite E. now apply in_map.
  - exfalso. apply Hnotin. rewrite <- E. now apply in_map.
  - now apply IH.
Qed.


Lemma sort_results_unique (l l' : list Result) :
  NoDup (map r_url l) -> Permutation l l' -> sort_results l = sort_results l'.
Proof.
  intros Hnd Hp. apply sorted_perm_unique; try apply sort_results_sorted.
  - rewrite !sort_results_perm. exact Hp.
  - intros a b Ha Hb Hab Hba.
    apply (nodup_map_inj r_url l Hnd).
    + eapply Permutation_in; [apply sort_results_perm | exact Ha].
    + eapply Permutation_in; [apply sort_results_perm | exact Hb].
    + pose proof (key_le_antisym _ _ Hab Hba) as E. unfold sort_key in E. now inversion E.
Qed.

(** ** Runs of [main] *)

Lemma validate_url_returns_url (urlparse : string -> exn + ParseResult)
    (sub : list string -> nat -> run_outcome) (url : string) (timeout : nat) (r : Result) :
  run_py sub (validate_url urlparse url timeout) = inr r -> r_url r = url.
Proof.
  unfold validate_url.
  destruct (any_in placeholders url); [intros H; now inversion H|].
  destruct (urlparse url) as [e|parsed]; [discriminate|].
  destruct (String.eqb (netloc parsed) ""); [intros H; now inversion H|].
  destruct (any_in allowlist_patterns url); [intros H; now inversion H|].
  cbn [run_py]. intros H. inversion H as [E].
  destruct (classify_status url timeout (sub (curl_argv url timeout) (timeout + 2)))
    as [message [[_ ->]|[_ ->]]]; reflexivity.
Qed.

Lemma collect_results_all (completed : list (exn + Result)) (results : list Result) :
  collect_results completed = inr results -> completed = map inr results.
Proof.
  revert results. induction completed as [|[e|r] completed IH]; intros results H.
  - inversion H. reflexivity.
  - discriminate.
  - cbn [collect_results] in H. destruct (collect_results completed) as [e|rs]; [discriminate|].
    inversion H. subst. cbn [map]. now rewrite (IH rs eq_refl).
Qed.

Definition url_of_completed (c : exn + Result) : string :=
  match c with
  | inl _ => EmptyString
  | inr r => r_url r
  end.

(** When [main] reaches the report, the results are those of the unique
    URLs, one each, in the order of completion. *)
Lemma main_results_urls (urlparse : string -> exn + ParseResult)
    (sub : list string -> nat -> run_outcome) (all_urls : list Occurrence)
    (completed : list (exn + Result)) (results : list Result) :
  Permutation (map (run_py sub) (submitted urlparse all_urls)) completed ->
  collect_results completed = inr results ->
  Permutation (unique_urls_of all_urls) (map r_url results).
Proof.
  intros Hp Hc. apply collect_results_all in Hc. subst completed.
  unfold submitted in Hp. rewrite map_map in Hp.
  set (g := fun url => run_py sub (validate_url urlparse url 10)) in Hp.
  assert (Hurl : forall u, In u (unique_urls_of all_urls) -> url_of_completed (g u) = u).
  { intros u Hu.
    assert (Hin : In (g u) (map inr results)).
    { eapply Permutation_in; [exact Hp|]. now apply in_map. }
    apply in_map_iff in Hin as (r & Hr & _).
    rewrite <- Hr. cbn [url_of_completed].
    apply (validate_url_returns_url urlparse sub u 10). now symmetry. }
  apply (Permutation_map url_of_completed) in Hp.
  rewrite !map_map in Hp. cbn [url_of_completed] in Hp.
  rewrite (map_ext_in _ (fun u => u) _ Hurl), map_id in Hp.
  exact Hp.
Qed.

Lemma main_results_distinct (urlparse : string -> exn + ParseResult)
    (sub : list string -> nat -> run_outcome) (all_urls : list Occurrence)
    (completed : list (exn + Result)) (results : list Result) :
  Permutation (map (run_py sub) (submitted urlparse all_urls)) completed ->
  collect_results completed = inr results ->
  NoDup (map r_url results).
Proof.
  intros Hp Hc. eapply Permutation_NoDup.
  - eapply main_results_urls; eassumption.
  - apply unique_urls_nodup.
Qed.

Lemma exists_fail_sorted (results : list Result) :
  Exists (fun r => r_status r = FAIL) (sort_results results) <->
  Exists (fun r => r_status r = FAIL) results.
Proof.
  rewrite !Exists_exists.
  split; intros (r & Hr & Hs); exists r; (split; [|exact Hs]).
  - eapply Permutation_in; [apply sort_results_perm | exact Hr].
  - eapply Permutation_in; [symmetry; apply sort_results_perm | exact Hr].
Qed.

(** The report stage: once the results are collected, [main] calls
    [sys.exit(1)] exactly when one of them is classified FAIL, and
    [sys.exit(0)] exactly when none is, whatever the number of PASS and
    SKIP results. *)
Theorem exit_code_one_iff_failure (all_urls : list Occurrence) (results : list Result) :
  (exit_code (main_report all_urls results) = 1%Z <->
   Exists (fun r => r_status r = FAIL) results) /\
  (exit_code (main_report all_urls results) = 0%Z <->
   ~ Exists (fun r => r_status r = FAIL) results).
Proof.
  destruct (main_report_eq all_urls results) as (tail & _ & ->).
  rewrite <- exists_fail_sorted.
  pose proof (fail_count_loop (sort_results results)
                {| fail_count := 0; pass_count := 0; skip_count := 0 |}) as H.
  cbn [fail_count] in H.
  destruct (0 <? fail_count _)%nat eqn:E.
  - apply Nat.ltb_lt in E. apply H in E as [E|E]; [lia|].
    split; split; try tauto; intros; try discriminate; contradiction.
  - apply Nat.ltb_ge in E.
    assert (Hno : ~ Exists (fun r => r_status r = FAIL) (sort_results results)).
    { intros Hx. assert (0 < fail_count (fold_left count_result (sort_results results)
                 {| fail_count := 0; pass_count := 0; skip_count := 0 |})) by (apply H; now right).
      lia. }
    split; split; try tauto; intros; try discriminate; contradiction.
Qed.

Lemma sort_results_unique_keys (l l' : list Result) :
  keys_determine l -> Permutation l l' -> sort_results l = sort_results l'.
Proof.
  intros Hk Hp. apply sorted_perm_unique; try apply sort_results_sorted.
  - rewrite !sort_results_perm. exact Hp.
  - intros a b Ha Hb Hab Hba. apply Hk.
    + eapply Permutation_in; [apply sort_results_perm | exact Ha].
    + eapply Permutation_in; [apply sort_results_perm | exact Hb].
    + exact (key_le_antisym _ _ Hab Hba).
Qed.




(** The sort is stable: two different results of one key stay in the
    order they came in, so the two orders of this list sort to different
    lists.  [main] never sorts such a list. *)
Example sort_results_keeps_equal_keys_in_order :
  Permutation
    [("https://a.org/", FAIL, "HTTP 404"); ("https://a.org/", FAIL, "Connection failed")]
    [("https://a.org/", FAIL, "Connection failed"); ("https://a.org/", FAIL, "HTTP 404")] /\
  sort_results [("https://a.org/", FAIL, "HTTP 404"); ("https://a.org/", FAIL, "Connection failed")]
  = [("https://a.org/", FAIL, "HTTP 404"); ("https://a.org/", FAIL, "Connection failed")] /\
  sort_results [("https://a.org/", FAIL, "Connection failed"); ("https://a.org/", FAIL, "HTTP 404")]
  = [("https://a.org/", FAIL, "Connection failed"); ("https://a.org/", FAIL, "HTTP 404")].
Proof. split; [apply perm_swap | split; reflexivity]. Qed.

(** ** Validation once per URL, and the locations of a failure *)

Lemma in_split_nodup (u : string) (l : list string) :
  NoDup l -> In u l ->
  exists l1 l2, l = (l1 ++ u :: l2)%list /\ ~ In u l1 /\ ~ In u l2.
Proof.
  intros Hnd Hin. apply in_split in Hin as (l1 & l2 & ->).
  exists l1, l2. split; [reflexivity|].
  apply NoDup_remove_2 in Hnd. rewrite in_app_iff in Hnd. tauto.
Qed.

Lemma locations_of_length (u : string) (all_urls : list Occurrence) :
  In u (map o_url all_urls) -> 0 < List.length (locations_of u all_urls).
Proof.
  unfold locations_of. intros H. apply in_map_iff in H as (o & Hu & Ho).
  rewrite length_map.
  assert (Hin : In o (filter (fun o => String.eqb (o_url o) u) all_urls)).
  { apply filter_In. split; [exact Ho|]. now apply String.eqb_eq. }
  destruct (filter _ all_urls); [contradiction | simpl; lia].
Qed.

(** C2, as the code has it.  A URL that occurs at N locations is handed
    to [validate_url] exactly once, and [url_locations] holds its N
    locations in the order they were found.  If the URL is classified
    FAIL, the report prints the URL, the reason, and all N locations, or,
    when N exceeds 3, the first 3 locations and the count N - 3 of the
    others.  For a URL classified PASS or SKIP the report prints no line
    of its own: such URLs are only counted. *)
Theorem url_validated_once_failure_located
    (urlparse : string -> exn + ParseResult) (all_urls : list Occurrence) (url : string) :
  In url (map o_url all_urls) ->
  (exists l1 l2,
      unique_urls_of all_urls = (l1 ++ url :: l2)%list /\ ~ In url l1 /\ ~ In url l2 /\
      submitted urlparse all_urls
      = (map (fun u => validate_url urlparse u 10) l1
         ++ validate_url urlparse url 10
         :: map (fun u => validate_url urlparse u 10) l2)%list) /\
  dd_get (url_locations_of all_urls) url = locations_of url all_urls /\
  0 < List.length (locations_of url all_urls) /\
  (forall results message,
      In (url, FAIL, message) results ->
      exists before after,
        printed (main_report all_urls results)
        = (before
           ++ [PrintFail url; PrintReason message; PrintFoundIn]
           ++ map (fun loc => PrintLocation (fst loc) (snd loc))
                (firstn 3 (locations_of url all_urls))
           ++ (if (3 <? List.length (locations_of url all_urls))%nat
               then [PrintMore (List.length (locations_of url all_urls) - 3)] else [])
           ++ [PrintBlank] ++ after)%list) /\
  (forall message,
      result_lines (url_locations_of all_urls) (url, PASS, message) = [] /\
      result_lines (url_locations_of all_urls) (url, SKIP, message) = []).
Proof.
  intros Hin. split; [|split; [|split; [|split]]].
  - destruct (in_split_nodup url (unique_urls_of all_urls) (unique_urls_nodup all_urls))
      as (l1 & l2 & E & H1 & H2); [now apply unique_urls_in|].
    exists l1, l2. repeat (split; [assumption|]).
    unfold submitted. rewrite E, map_app. reflexivity.
  - apply url_locations_get.
  - now apply locations_of_length.
  - intros results message Hr.
    destruct (main_report_eq all_urls results) as (tail & -> & _).
    assert (Hs : In (url, FAIL, message) (sort_results results))
      by (eapply Permutation_in; [symmetry; apply sort_results_perm | exact Hr]).
    apply in_split in Hs as (s1 & s2 & ->).
    rewrite flat_map_app. cbn [flat_map].
    unfold result_lines at 2. cbn [r_status r_url r_message fst snd].
    unfold fail_lines. rewrite url_locations_get.
    exists (PrintResultsHeader :: flat_map (result_lines (url_locations_of all_urls)) s1),
      (flat_map (result_lines (url_locations_of all_urls)) s2 ++ tail)%list.
    cbn [app]. rewrite <- ?app_assoc. cbn [app]. rewrite <- ?app_assoc. reflexivity.
  - intros message. split; reflexivity.
Qed.

Lemma url_validated_once_failure_located_witness :
  (exists l1 l2,
      unique_urls_of sample_occurrences = (l1 ++ "https://gone.example.org/" :: l2)%list /\
      ~ In "https://gone.example.org/" l1 /\ ~ In "https://gone.example.org/" l2 /\
      submitted urlparse_py sample_occurrences
      = (map (fun u => validate_url urlparse_py u 10) l1
         ++ validate_url urlparse_py "https://gone.example.org/" 10
         :: map (fun u => validate_url urlparse_py u 10) l2)%list) /\
  dd_get (url_locations_of sample_occurrences) "https://gone.example.org/"
  = locations_of "https://gone.example.org/" sample_occurrences /\
  0 < List.length (locations_of "https://gone.example.org/" sample_occurrences) /\
  (forall results message,
      In ("https://gone.example.org/", FAIL, message) results ->
      exists before after,
        printed (main_report sample_occurrences results)
        = (before
           ++ [PrintFail "https://gone.example.org/"; PrintReason message; PrintFoundIn]
           ++ map (fun loc => PrintLocation (fst loc) (snd loc))
                (firstn 3 (locations_of "https://gone.example.org/" sample_occurrences))
           ++ (if (3 <? List.length (locations_of "https://gone.example.org/" sample_occurrences))%nat
               then [PrintMore (List.length (locations_of "https://gone.example.org/" sample_occurrences) - 3)]
               else [])
           ++ [PrintBlank] ++ after)%list) /\
  (forall message,
      result_lines (url_locations_of sample_occurrences)
        ("https://gone.example.org/", PASS, message) = [] /\
      result_lines (url_locations_of sample_occurrences)
        ("https://gone.example.org/", SKIP, message) = []).
Proof.
  apply (url_validated_once_failure_located urlparse_py sample_occurrences
           "https://gone.example.org/").
  simpl. left. reflexivity.
Defined.

(** The report of the sample: the failed URL with its first three
    locations and the count of the fourth. *)
Example sample_report :
  main_report sample_occurrences
    [("https://docs.rs/", PASS, "HTTP 200");
     ("https://gone.example.org/", FAIL, "Connection failed")]
  = ([PrintResultsHeader;
      PrintFail "https://gone.example.org/"; PrintReason "Connection failed"; PrintFoundIn;
      PrintLocation "README.md" 3; PrintLocation "docs/USAGE.md" 1;
      PrintLocation "docs/USAGE.md" 4; PrintMore 1; PrintBlank;
      PrintPassed 1; PrintSummary 5 2 1 1 0; PrintFailed 1], 1%Z).
Proof. reflexivity. Qed.

(** C2, as stated, fails for a URL that is not classified FAIL: the URL
    below occurs at two locations and passes, and the report lists
    neither location; it only counts the URL. *)
Lemma passing_url_locations_not_printed :
  locations_of "https://docs.rs/"
    [("README.md", 9, "https://docs.rs/"); ("src/lib.rs", 1, "https://docs.rs/")]
  = [("README.md", 9); ("src/lib.rs", 1)] /\
  printed
    (main_report
       [("README.md", 9, "https://docs.rs/"); ("src/lib.rs", 1, "https://docs.rs/")]
       [("https://docs.rs/", PASS, "HTTP 200")])
  = [PrintResultsHeader; PrintPassed 1; PrintSummary 2 1 1 0 0; PrintAllValid].
Proof. split; reflexivity. Qed.

(** ** Consequences for whole runs *)

Lemma main_report_sorted (all_urls : list Occurrence) (results results' : list Result) :
  sort_results results = sort_results results' ->
  main_report all_urls results = main_report all_urls results'.
Proof. intros H. unfold main_report. now rewrite H. Qed.

Lemma map_inr_inj {A B} (l l' : list B) : map (@inr A B) l = map (@inr A B) l' -> l = l'.
Proof.
  revert l'. induction l as [|x l IH]; intros [|y l'] H; try discriminate; [reflexivity|].
  cbn [map] in H. inversion H. f_equal. now apply IH.
Qed.

(** X22.  Two runs of [main] on the same occurrences and the same
    outcomes of the checks that both reach the report print the same
    lines and exit with the same code, whatever the order in which the
    checks complete. *)
Lemma main_run_deterministic (urlparse : string -> exn + ParseResult)
    (sub : list string -> nat -> run_outcome) (all_urls : list Occurrence)
    (o1 o2 : list out_line * Z) :
  main_run urlparse sub all_urls (inr o1) ->
  main_run urlparse sub all_urls (inr o2) ->
  o1 = o2.
Proof.
  intros H1 H2.
  inversion H1 as [c1 r1 Hp1 Hc1 E1|]; subst.
  inversion H2 as [c2 r2 Hp2 Hc2 E2|]; subst.
  apply main_report_sorted, sort_results_unique.
  - exact (main_results_distinct urlparse sub all_urls c1 r1 Hp1 Hc1).
  - apply collect_results_all in Hc1, Hc2. subst c1 c2.
    assert (Hp : Permutation (map (@inr exn Result) r1) (map inr r2))
      by (etransitivity; [symmetry; exact Hp1 | exact Hp2]).
    apply Permutation_map_inv in Hp as (r3 & E & Hp).
    apply map_inr_inj in E. subst r3. now symmetry.
Qed.

(** X23.  A run that reaches the report exits with code 1 exactly when
    the check of one of the unique URLs was classified FAIL. *)
Lemma main_run_exit_code (urlparse : string -> exn + ParseResult)
    (sub : list string -> nat -> run_outcome) (all_urls : list Occurrence)
    (outcome : list out_line * Z) :
  main_run urlparse sub all_urls (inr outcome) ->
  (exit_code outcome = 1%Z <->
   exists url message,
     In url (unique_urls_of all_urls) /\
     run_py sub (validate_url urlparse url 10) = inr (url, FAIL, message)).
Proof.
  intros H. inversion H as [completed results Hp Hc E|]; subst.
  destruct (main_report_eq all_urls results) as (tail & _ & Hex).
  pose proof (fail_count_loop (sort_results results)
                {| fail_count := 0; pass_count := 0; skip_count := 0 |}) as Hf.
  cbn [fail_count] in Hf. rewrite exists_fail_sorted, Exists_exists in Hf.
  apply collect_results_all in Hc. subst completed.
  unfold submitted in Hp. rewrite map_map in Hp.
  assert (Hiff : (exists r, In r results /\ r_status r = FAIL) <->
                 exists url message,
                   In url (unique_urls_of all_urls) /\
                   run_py sub (validate_url urlparse url 10) = inr (url, FAIL, message)).
  { split.
    - intros ([[u st] msg] & Hr & Hs). cbn in Hs. subst st.
      assert (Hin : In (inr (u, FAIL, msg))
                      (map (fun x => run_py sub (validate_url urlparse x 10))
                         (unique_urls_of all_urls))).
      { eapply Permutation_in; [symmetry; exact Hp|]. now apply in_map. }
      apply in_map_iff in Hin as (u' & Hrun & Hu').
      pose proof (validate_url_returns_url _ _ _ _ _ Hrun) as E. cbn in E. subst u'.
      exists u, msg. split; assumption.
    - intros (u & msg & Hu & Hrun).
      assert (Hin : In (run_py sub (validate_url urlparse u 10)) (map inr results)).
      { eapply Permutation_in; [exact Hp|].
        apply in_map_iff. exists u. split; [reflexivity | exact Hu]. }
      rewrite Hrun in Hin. apply in_map_iff in Hin as (r & Hr & Hin).
      inversion Hr. subst r. exists (u, FAIL, msg). split; [exact Hin | reflexivity]. }
  rewrite Hex. rewrite <- Hiff.
  destruct (0 <? fail_count _)%nat eqn:E.
  - apply Nat.ltb_lt in E. apply Hf in E as [E|E]; [lia|]. tauto.
  - apply Nat.ltb_ge in E. split; [discriminate|].
    intros Hx. assert (0 < fail_count (fold_left count_result (sort_results results)
                 {| fail_count := 0; pass_count := 0; skip_count := 0 |})) by (apply Hf; now right).
    lia.
Qed.

(** The run on the README line with the IPv6 literal never reaches the
    report: the exception of [validate_url] leaves [main]. *)
Example main_run_unmatched_bracket (sub : list string -> nat -> run_outcome) :
  main_run urlparse_py sub
    (extract_urls_from_markdown "README.md" (inr "Listening on http://[::1]:8080/ by default"))
    (inl (PyExc "ValueError" "Invalid IPv6 URL")).
Proof.
  apply (main_raises _ _ _ [inl (PyExc "ValueError" "Invalid IPv6 URL")]); reflexivity.
Qed.

(** * Further properties of the script *)

(** ** [validate_url]: exceptions, skip reasons, results *)

(** X1.  [validate_url] raises exactly when the URL holds no placeholder
    marker and [urlparse] raises, and the exception is the one of
    [urlparse]; no outcome of [curl] makes it raise.  In every other
    case, that is with a placeholder marker or once [urlparse] has
    returned, no run of it raises. *)
Theorem validate_url_raises_exactly
    (urlparse : string -> exn + ParseResult) (url : string) (timeout : nat) :
  (forall e sub,
      run_py sub (validate_url urlparse url timeout) = inl e <->
      any_in placeholders url = false /\ urlparse url = inl e) /\
  (never_raises (validate_url urlparse url timeout) <->
   any_in placeholders url = true \/ exists parsed, urlparse url = inr parsed).
Proof.
  unfold validate_url. split.
  - intros e sub. destruct (any_in placeholders url).
    + cbn [run_py]. split; [discriminate | intros [H _]; discriminate].
    + destruct (urlparse url) as [e'|parsed].
      * cbn [run_py]. split; [intros H; inversion H; auto | intros [_ H]; inversion H; auto].
      * destruct (String.eqb (netloc parsed) "");
          [cbn [run_py]; split; [discriminate | intros [_ H]; discriminate]|].
        destruct (any_in allowlist_patterns url);
          cbn [run_py]; (split; [discriminate | intros [_ H]; discriminate]).
  - destruct (any_in placeholders url).
    + cbn [never_raises]. split; auto.
    + destruct (urlparse url) as [e'|parsed].
      * cbn [never_raises]. split; [contradiction|].
        intros [H|[p H]]; discriminate.
      * split; [intros _; right; eauto | intros _].
        destruct (String.eqb (netloc parsed) ""); [exact I|].
        destruct (any_in allowlist_patterns url); [exact I|].
        intros o. exact I.
Qed.

(** X2.  The three skip reasons in their order of precedence: the
    placeholder message for a URL with a placeholder marker; the relative
    URL message for a URL without marker whose parsed network location is
    empty, allowlisted or not; the allowlist message for a URL without
    marker, with a network location, that holds an allowlisted domain.
    A SKIP result is always one of these three, and is returned without
    a subprocess. *)
Theorem validate_url_skip_reason
    (urlparse : string -> exn + ParseResult) (url : string) (timeout : nat) :
  (validate_url urlparse url timeout = Return (url, SKIP, "Template/placeholder URL") <->
   contains_any placeholders url) /\
  (validate_url urlparse url timeout = Return (url, SKIP, "Relative or fragment URL") <->
   ~ contains_any placeholders url /\
   exists parsed, urlparse url = inr parsed /\ netloc parsed = "") /\
  (validate_url urlparse url timeout
   = Return (url, SKIP, "Allowlisted (blocks CI user agents)") <->
   ~ contains_any placeholders url /\
   exists parsed, urlparse url = inr parsed /\ netloc parsed <> "" /\
                  contains_any allowlist_patterns url) /\
  (forall sub r,
      run_py sub (validate_url urlparse url timeout) = inr r ->
      r_status r = SKIP ->
      validate_url urlparse url timeout = Return r /\
      In (r_message r) ["Template/placeholder URL"; "Relative or fragment URL";
                        "Allowlisted (blocks CI user agents)"]).
Proof.
  rewrite <- !any_in_iff. unfold validate_url.
  destruct (any_in placeholders url) eqn:Hp.
  { split; [split; reflexivity|]. split; [|split].
    - split; [intros H; inversion H | intros [H _]; exfalso; now apply H].
    - split; [intros H; inversion H | intros [H _]; exfalso; now apply H].
    - intros sub r H Hs. cbn [run_py] in H. inversion H. subst r.
      split; [reflexivity | cbn; auto]. }
  destruct (urlparse url) as [e|parsed].
  { split; [split; discriminate|]. split; [|split].
    - split; [discriminate | intros [_ (p & H & _)]; discriminate].
    - split; [discriminate | intros [_ (p & H & _)]; discriminate].
    - intros sub r H. discriminate. }
  destruct (String.eqb_spec (netloc parsed) "") as [Hn|Hn].
  { split; [split; [intros H; inversion H | discriminate]|]. split; [|split].
    - split; [intros _; split; [discriminate | eauto] | reflexivity].
    - split; [intros H; inversion H|].
      intros [_ (p & H & Hne & _)]. inversion H. subst p. contradiction.
    - intros sub r H Hs. cbn [run_py] in H. inversion H. subst r.
      split; [reflexivity | cbn; auto]. }
  destruct (any_in allowlist_patterns url) eqn:Ha.
  { split; [split; [intros H; inversion H | discriminate]|]. split; [|split].
    - split; [intros H; inversion H|].
      intros [_ (p & H & He)]. inversion H. subst p. contradiction.
    - split; [intros _; split; [discriminate|] | reflexivity].
      exists parsed. split; [reflexivity|]. split; [exact Hn | now apply any_in_iff].
    - intros sub r H Hs. cbn [run_py] in H. inversion H. subst r.
      split; [reflexivity | cbn; auto]. }
  split; [split; discriminate|]. split; [|split].
  - split; [discriminate|]. intros [_ (p & H & He)]. inversion H. subst p. contradiction.
  - split; [discriminate|]. intros [_ (p & H & _ & Hx)].
    apply any_in_iff in Hx. congruence.
  - intros sub r H Hs. cbn [run_py] in H. inversion H. subst r.
    destruct (classify_status url timeout (sub (curl_argv url timeout) (timeout + 2)))
      as [message [[_ Hc]|[_ Hc]]]; rewrite Hc in Hs; discriminate.
Qed.

(** X3.  Whatever [validate_url] returns carries the URL it was called
    with as its first component, which is what lets [main] look the
    locations of a result up by that component; and the result is either
    a SKIP returned without a subprocess, or the classification of the
    outcome of the one [curl] call. *)
Theorem validate_url_result
    (urlparse : string -> exn + ParseResult) (sub : list string -> nat -> run_outcome)
    (url : string) (timeout : nat) (r : Result) :
  run_py sub (validate_url urlparse url timeout) = inr r ->
  r_url r = url /\
  ((r_status r = SKIP /\ validate_url urlparse url timeout = Return r) \/
   (r_status r <> SKIP /\
    r = classify url timeout (sub (curl_argv url timeout) (timeout + 2)))).
Proof.
  intros H. split; [exact (validate_url_returns_url urlparse sub url timeout r H)|].
  revert H. unfold validate_url.
  destruct (any_in placeholders url);
    [cbn [run_py]; intros H; inversion H; left; split; reflexivity|].
  destruct (urlparse url) as [e|parsed]; [discriminate|].
  destruct (String.eqb (netloc parsed) "");
    [cbn [run_py]; intros H; inversion H; left; split; reflexivity|].
  destruct (any_in allowlist_patterns url);
    [cbn [run_py]; intros H; inversion H; left; split; reflexivity|].
  cbn [run_py]. intros H. inversion H as [E]. right. split; [|reflexivity].
  destruct (classify_status url timeout (sub (curl_argv url timeout) (timeout + 2)))
    as [message [[_ ->]|[_ ->]]]; discriminate.
Qed.

Lemma validate_url_result_witness :
  r_url ("https://docs.rs/syn", PASS, "HTTP 200") = "https://docs.rs/syn" /\
  ((r_status ("https://docs.rs/syn", PASS, "HTTP 200") = SKIP /\
    validate_url urlparse_py "https://docs.rs/syn" 10
    = Return ("https://docs.rs/syn", PASS, "HTTP 200")) \/
   (r_status ("https://docs.rs/syn", PASS, "HTTP 200") <> SKIP /\
    ("https://docs.rs/syn", PASS, "HTTP 200")
    = classify "https://docs.rs/syn" 10
        ((fun _ _ => Completed 0 "200" "") (curl_argv "https://docs.rs/syn" 10) (10 + 2)))).
Proof.
  apply (validate_url_result urlparse_py (fun _ _ => Completed 0 "200" "")
           "https://docs.rs/syn" 10 ("https://docs.rs/syn", PASS, "HTTP 200")).
  reflexivity.
Defined.

Lemma lstrip_by_append (p : ascii -> bool) (s w : string) :
  lstrip_by p (s ++ w) = if all_chars p s then lstrip_by p w else lstrip_by p s ++ w.
Proof.
  induction s as [|c s IH]; [reflexivity|].
  cbn [append lstrip_by all_chars]. destruct (p c); [exact IH | reflexivity].
Qed.

Lemma lstrip_by_all (p : ascii -> bool) (w : string) :
  all_chars p w = true -> lstrip_by p w = "".
Proof.
  induction w as [|c w IH]; [reflexivity|].
  cbn [all_chars lstrip_by]. intros H. apply andb_true_iff in H as [-> H]. auto.
Qed.

Lemma rstrip_by_all (p : ascii -> bool) (w : string) :
  all_chars p w = true -> rstrip_by p w = "".
Proof.
  induction w as [|c w IH]; [reflexivity|].
  cbn [all_chars rstrip_by]. intros H. apply andb_true_iff in H as [Hc H].
  now rewrite (IH H), Hc.
Qed.

Lemma rstrip_by_append_all (p : ascii -> bool) (s w : string) :
  all_chars p w = true -> rstrip_by p (s ++ w) = rstrip_by p s.
Proof.
  intros H. induction s as [|c s IH].
  - cbn [append rstrip_by]. now apply rstrip_by_all.
  - cbn [append rstrip_by]. now rewrite IH.
Qed.

Lemma strip_padding (w1 s w2 : string) :
  all_chars is_space w1 = true ->
  all_chars is_space w2 = true ->
  strip (w1 ++ s ++ w2) = strip s.
Proof.
  intros H1 H2. unfold strip.
  rewrite lstrip_by_append, H1, lstrip_by_append.
  destruct (all_chars is_space s) eqn:Hs.
  - rewrite (lstrip_by_all _ _ H2), (lstrip_by_all _ _ Hs). reflexivity.
  - now apply rstrip_by_append_all.
Qed.

(** X4.  White space around the status code that [curl] writes does not
    change the result of the check: the code is stripped before it is
    tested and before it is put in the message. *)
Theorem classify_ignores_padding (url : string) (timeout : nat)
    (returncode : Z) (w1 stdout w2 stderr : string) :
  all_chars is_space w1 = true ->
  all_chars is_space w2 = true ->
  classify url timeout (Completed returncode (w1 ++ stdout ++ w2) stderr)
  = classify url timeout (Completed returncode stdout stderr).
Proof.
  intros H1 H2. unfold classify. now rewrite (strip_padding w1 stdout w2 H1 H2).
Qed.

Lemma classify_ignores_padding_witness :
  classify "https://docs.rs/" 10 (Completed 0 (" " ++ "404" ++ String newline "") "")
  = classify "https://docs.rs/" 10 (Completed 0 "404" "").
Proof.
  apply (classify_ignores_padding "https://docs.rs/" 10 0 " " "404" (String newline "") "");
    reflexivity.
Defined.

(** ** The extractor of a link target, on every input *)

(** The loop of the extractor splits the text after the start: it reads
    a part without blank, and stops at the end of the text, at a blank,
    or at a closing parenthesis that closes none of the part. *)
Lemma scan_link_split (rest : string) :
  forall depth i,
    exists u tail,
      rest = u ++ tail /\
      scan_link rest depth i = i + String.length u /\
      no_blank u = true /\
      (tail = "" \/
       (exists c tail', tail = String c tail' /\
          char_in c (String " " (String tab (String newline EmptyString))) = true) \/
       (exists tail', tail = String ")" tail' /\ balanced u depth = true)).
Proof.
  unfold no_blank.
  induction rest as [|c rest IH]; intros depth i.
  - exists "", "". cbn. repeat split; auto.
  - cbn [scan_link].
    destruct (Ascii.eqb_spec c "(") as [->|Hopen].
    { destruct (IH (S depth) (S i)) as (u & tail & -> & Hs & Hb & Hstop).
      exists (String "(" u), tail. cbn [append String.length all_chars balanced].
      rewrite Hs, Hb. cbn. split; [reflexivity|]. split; [lia|]. split; [reflexivity|].
      exact Hstop. }
    destruct (Ascii.eqb_spec c ")") as [->|Hclose].
    { destruct depth as [|d].
      - exists "", (String ")" rest). cbn. split; [reflexivity|]. split; [lia|].
        split; [reflexivity|]. right. right. eauto.
      - destruct (IH d (S i)) as (u & tail & -> & Hs & Hb & Hstop).
        exists (String ")" u), tail. cbn [append String.length all_chars balanced].
        rewrite Hs, Hb. cbn. split; [reflexivity|]. split; [lia|]. split; [reflexivity|].
        exact Hstop. }
    destruct (char_in c (String " " (String tab (String newline EmptyString)))) eqn:Hblank.
    { exists "", (String c rest). cbn [append String.length all_chars].
      split; [reflexivity|]. split; [lia|]. split; [reflexivity|].
      right. left. eauto. }
    destruct (IH depth (S i)) as (u & tail & -> & Hs & Hb & Hstop).
    exists (String c u), tail. cbn [append String.length all_chars balanced].
    rewrite Hs, Hb, Hblank.
    destruct (Ascii.eqb_spec c "(") as [E|_]; [contradiction|].
    destruct (Ascii.eqb_spec c ")") as [E|_]; [contradiction|].
    cbn. split; [reflexivity|]. split; [lia|]. split; [reflexivity|]. exact Hstop.
Qed.

Lemma extract_markdown_link_url_spec_aux (text : string) (start_pos : nat) :
  exists tail,
    drop start_pos text = extract_markdown_link_url text start_pos ++ tail /\
    no_blank (extract_markdown_link_url text start_pos) = true.
Proof.
  unfold extract_markdown_link_url, slice.
  destruct (scan_link_split (drop start_pos text) 0 start_pos)
    as (u & tail & E & -> & Hb & _).
  replace (start_pos + String.length u - start_pos) with (String.length u) by lia.
  rewrite E, take_append_length. exists tail. auto.
Qed.

(** X5.  On every text and start position, [extract_markdown_link_url]
    returns a prefix of the text from the start position on, without a
    space, tab or newline, and what follows it tells why it ended: the
    end of the text (an unclosed link gives the rest of the text), a
    space, tab or newline, or a closing parenthesis, in which case the
    parentheses of the returned URL are balanced.  A start position past
    the end gives the empty string. *)
Theorem extract_markdown_link_url_spec (text : string) (start_pos : nat) :
  exists tail,
    drop start_pos text = extract_markdown_link_url text start_pos ++ tail /\
    no_blank (extract_markdown_link_url text start_pos) = true /\
    (tail = "" \/
     (exists c tail', tail = String c tail' /\
        char_in c (String " " (String tab (String newline EmptyString))) = true) \/
     (exists tail', tail = String ")" tail' /\
        balanced (extract_markdown_link_url text start_pos) 0 = true)).
Proof.
  unfold extract_markdown_link_url, slice.
  destruct (scan_link_split (drop start_pos text) 0 start_pos)
    as (u & tail & E & -> & Hb & Hstop).
  replace (start_pos + String.length u - start_pos) with (String.length u) by lia.
  rewrite E, take_append_length. exists tail. auto.
Qed.

(** ** What the two patterns match *)

Lemma take_drop (n : nat) (s : string) : s = take n s ++ drop n s.
Proof.
  revert s. induction n as [|n IH]; intros [|c s]; cbn [take drop append]; try reflexivity.
  now rewrite <- IH.
Qed.

Lemma drop_drop (n m : nat) (s : string) : drop n (drop m s) = drop (m + n) s.
Proof.
  revert s. induction m as [|m IH]; intros s; [reflexivity|].
  destruct s as [|c s]; cbn [drop Nat.add]; [now destruct n | apply IH].
Qed.

Lemma substring_of_take (n : nat) (s : string) : substring_of (take n s) s.
Proof. exists "", (drop n s). apply take_drop. Qed.

Lemma substring_of_cons (m : string) (c : ascii) (s : string) :
  substring_of m s -> substring_of m (String c s).
Proof. intros (pre & post & ->). now exists (String c pre), post. Qed.

Lemma substring_of_trans (a b c : string) :
  substring_of a b -> substring_of b c -> substring_of a c.
Proof.
  intros (p1 & q1 & ->) (p2 & q2 & ->).
  exists (p2 ++ p1), (q1 ++ q2). now rewrite !append_assoc'.
Qed.

Lemma substring_of_after (n : nat) (m s : string) :
  substring_of m (drop n s) -> substring_of m s.
Proof.
  intros (pre & post & E). exists (take n s ++ pre), post.
  rewrite append_assoc', <- E. apply take_drop.
Qed.

Lemma span_len_all (p : ascii -> bool) (s : string) :
  all_chars p (take (span_len p s) s) = true.
Proof.
  induction s as [|c s IH]; [reflexivity|].
  cbn [span_len]. destruct (p c) eqn:E; [|reflexivity].
  cbn [take all_chars]. now rewrite E.
Qed.

Lemma bare_match_at_spec (s : string) (n : nat) :
  bare_match_at s = Some n -> bare_match (take n s).
Proof.
  unfold bare_match_at, bare_match. intros H.
  destruct (startswith "https://" s) eqn:E.
  - apply startswith_iff in E as [t ->].
    change (drop 8 ("https://" ++ t)) with t in H.
    pose proof (span_len_all bare_char t) as Hall.
    destruct (span_len bare_char t) as [|k] eqn:Ek; [discriminate|].
    inversion H. exists "https://", (take (S k) t).
    split; [reflexivity|]. split; [now right|]. split; [|exact Hall].
    destruct t; [discriminate Ek | discriminate].
  - destruct (startswith "http://" s) eqn:E'; [|discriminate].
    apply startswith_iff in E' as [t ->].
    change (drop 7 ("http://" ++ t)) with t in H.
    pose proof (span_len_all bare_char t) as Hall.
    destruct (span_len bare_char t) as [|k] eqn:Ek; [discriminate|].
    inversion H. exists "http://", (take (S k) t).
    split; [reflexivity|]. split; [now left|]. split; [|exact Hall].
    destruct t; [discriminate Ek | discriminate].
Qed.

Lemma finditer_from_spec (s : string) :
  forall skip m, In m (finditer_from skip s) -> substring_of m s /\ bare_match m.
Proof.
  induction s as [|c s IH]; intros skip m H; [contradiction|].
  cbn [finditer_from] in H.
  assert (Hrest : forall k, In m (finditer_from k s) ->
                            substring_of m (String c s) /\ bare_match m).
  { intros k Hk. destruct (IH k m Hk) as [Hsub Hm].
    split; [now apply substring_of_cons | exact Hm]. }
  destruct skip as [|k]; [|now apply (Hrest k)].
  destruct (bare_match_at (String c s)) as [n|] eqn:E; [|now apply (Hrest 0)].
  destruct H as [<-|H]; [|now apply (Hrest (n - 1))].
  split; [apply substring_of_take | now apply bare_match_at_spec].
Qed.

(** X6.  Every match of the bare-URL pattern in a line is a substring of
    the line made of the scheme [http://] or [https://] and one or more
    characters that are no white space, quote character, angle bracket,
    closing parenthesis or closing square bracket. *)
Theorem BARE_URL_finditer_spec (line m : string) :
  In m (BARE_URL_finditer line) ->
  substring_of m line /\
  exists scheme body,
    m = scheme ++ body /\ (scheme = "http://" \/ scheme = "https://") /\
    body <> "" /\ all_chars bare_char body = true.
Proof. intros H. exact (finditer_from_spec line 0 m H). Qed.

Lemma BARE_URL_finditer_spec_witness :
  substring_of "https://docs.rs/syn" "(see https://docs.rs/syn). Next" /\
  exists scheme body,
    "https://docs.rs/syn" = scheme ++ body /\ (scheme = "http://" \/ scheme = "https://") /\
    body <> "" /\ all_chars bare_char body = true.
Proof.
  apply (BARE_URL_finditer_spec "(see https://docs.rs/syn). Next" "https://docs.rs/syn").
  vm_compute. left. reflexivity.
Defined.

Lemma search_md_link_some (s : string) :
  forall n, search_md_link s = Some n ->
            exists t, drop n s = "](" ++ t /\ has_http_scheme t.
Proof.
  unfold has_http_scheme.
  induction s as [|c s IH]; intros n H.
  - cbn in H. discriminate.
  - cbn [search_md_link] in H.
    destruct (startswith "](http://" (String c s)) eqn:E1.
    { inversion H. apply startswith_iff in E1 as [t E]. cbn [orb] in *.
      exists ("http://" ++ t). split; [exact E | left; apply startswith_append]. }
    destruct (startswith "](https://" (String c s)) eqn:E2.
    { inversion H. apply startswith_iff in E2 as [t E]. cbn [orb] in *.
      exists ("https://" ++ t). split; [exact E | right; apply startswith_append]. }
    cbn [orb] in H. destruct (search_md_link s) as [n'|]; [|discriminate].
    inversion H. cbn [drop]. now apply IH.
Qed.

Lemma scan_link_plain (c : ascii) (rest : string) (depth i : nat) :
  Ascii.eqb c "(" = false ->
  Ascii.eqb c ")" = false ->
  char_in c (String " " (String tab (String newline EmptyString))) = false ->
  scan_link (String c rest) depth i = scan_link rest depth (S i).
Proof. intros H1 H2 H3. cbn [scan_link]. now rewrite H1, H2, H3. Qed.

(** Started at a scheme, the extractor returns the scheme and more. *)
Lemma extract_keeps_scheme (text : string) (start_pos : nat) :
  has_http_scheme (drop start_pos text) ->
  has_http_scheme (extract_markdown_link_url text start_pos).
Proof.
  unfold has_http_scheme, extract_markdown_link_url, slice.
  intros [H|H]; apply startswith_iff in H as [t E]; rewrite E.
  - cbn [append]. do 7 (rewrite scan_link_plain by reflexivity).
    destruct (scan_link_split t 0 (S (S (S (S (S (S (S start_pos))))))))
      as (u & tail & _ & -> & _).
    replace (S (S (S (S (S (S (S start_pos)))))) + String.length u - start_pos)
      with (S (S (S (S (S (S (S (String.length u)))))))) by lia.
    left. reflexivity.
  - cbn [append]. do 8 (rewrite scan_link_plain by reflexivity).
    destruct (scan_link_split t 0 (S (S (S (S (S (S (S (S start_pos)))))))))
      as (u & tail & _ & -> & _).
    replace (S (S (S (S (S (S (S (S start_pos))))))) + String.length u - start_pos)
      with (S (S (S (S (S (S (S (S (String.length u))))))))) by lia.
    right. reflexivity.
Qed.

Lemma md_link_loop_spec (line : string) (fuel : nat) :
  forall i u,
    In u (md_link_loop fuel line i) ->
    (exists pre post, line = pre ++ "](" ++ u ++ post) /\
    has_http_scheme u /\ no_blank u = true.
Proof.
  induction fuel as [|fuel IH]; intros i u H; [contradiction|].
  cbn [md_link_loop] in H.
  destruct (i <? String.length line)%nat; [|contradiction].
  destruct (search_md_link (drop i line)) as [start|] eqn:Es; [|contradiction].
  cbv zeta in H. destruct H as [<-|H]; [|exact (IH _ u H)].
  apply search_md_link_some in Es as (t & Et & Hscheme).
  rewrite drop_drop in Et.
  assert (Edrop : drop (i + start + 2) line = t).
  { rewrite <- (drop_drop 2 (i + start)), Et. reflexivity. }
  destruct (extract_markdown_link_url_spec_aux line (i + start + 2)) as (tail & E & Hb).
  split; [|split; [|exact Hb]].
  - exists (take (i + start) line), tail.
    rewrite <- E, Edrop, <- Et. apply take_drop.
  - apply extract_keeps_scheme. now rewrite Edrop.
Qed.

(** X7.  Every URL the markdown-link loop records for a line stands in
    the line right after a closing square bracket and an opening
    parenthesis, starts with [http://] or [https://], and holds no
    space, tab or newline. *)
Theorem md_links_spec (line u : string) :
  In u (md_links line) ->
  (exists pre post, line = pre ++ "](" ++ u ++ post) /\
  has_http_scheme u /\ no_blank u = true.
Proof. unfold md_links. apply md_link_loop_spec. Qed.

Lemma md_links_spec_witness :
  (exists pre post,
      "see [a](https://a.org/x_(y)) and [b](http://b.org/)"
      = pre ++ "](" ++ "http://b.org/" ++ post) /\
  has_http_scheme "http://b.org/" /\ no_blank "http://b.org/" = true.
Proof.
  apply (md_links_spec "see [a](https://a.org/x_(y)) and [b](http://b.org/)" "http://b.org/").
  vm_compute. right. left. reflexivity.
Defined.

(** X8.  The markdown-link loop of a line ends: with fuel for as many
    rounds as the line has characters, or more, it gives the same URLs. *)
Theorem md_links_fuel (line : string) (fuel : nat) :
  String.length line <= fuel ->
  md_link_loop fuel line 0 = md_links line.
Proof.
  intros H. unfold md_links. apply md_link_loop_fuel; lia.
Qed.

Lemma md_links_fuel_witness :
  md_link_loop 100 "[a](http://a.org/) [b](http://b.org/)" 0
  = md_links "[a](http://a.org/) [b](http://b.org/)".
Proof.
  apply (md_links_fuel "[a](http://a.org/) [b](http://b.org/)" 100).
  simpl. lia.
Defined.

Lemma rstrip_by_keep (p : ascii -> bool) (a b : string) (c : ascii) :
  last_char a = Some c -> p c = false ->
  rstrip_by p (a ++ b) = a ++ rstrip_by p b.
Proof.
  induction a as [|x a IH]; intros Hl Hc; [discriminate|].
  destruct a as [|y a].
  - cbn in Hl. inversion Hl. subst x. cbn [append]. now apply rstrip_by_head.
  - change (last_char (String x (String y a))) with (last_char (String y a)) in Hl.
    change (String x (String y a) ++ b) with (String x (String y a ++ b)).
    cbn [rstrip_by]. rewrite (IH Hl Hc). reflexivity.
Qed.

(** The stripping of either extractor keeps the scheme of a match and
    cuts the match at its end only. *)
Lemma strip_of_bare_match (rust : bool) (m : string) :
  bare_match m ->
  has_http_scheme (strip_of rust m) /\ exists suffix, m = strip_of rust m ++ suffix.
Proof.
  intros (scheme & body & -> & Hscheme & _ & _).
  set (p := fun c => char_in c (stripped_chars rust)).
  destruct (rstrip_by_spec p body) as (suffix & Hs & _ & _).
  assert (E : strip_of rust (scheme ++ body) = scheme ++ rstrip_by p body).
  { destruct Hscheme as [->| ->]; destruct rust;
      unfold strip_of, rust_strip, md_strip, rstrip, lstrip;
      (rewrite (rstrip_by_keep _ _ body "/"); [reflexivity | reflexivity | reflexivity]). }
  rewrite E. split.
  - unfold has_http_scheme.
    destruct Hscheme as [->| ->]; [left | right]; apply startswith_append.
  - exists suffix. rewrite append_assoc', <- Hs. reflexivity.
Qed.

(** What the scan of one line adds to the list. *)
Lemma scan_line_in (rust : bool) (file_path : string) (urls : list Occurrence)
    (line_no : nat) (line : string) (o : Occurrence) :
  In o (scan_line (strip_of rust) file_path urls (line_no, line)) ->
  In o urls \/
  (o_file o = file_path /\ o_line o = line_no /\
   substring_of (o_url o) line /\ has_http_scheme (o_url o)).
Proof.
  unfold scan_line, bare_phase. intros H.
  apply bare_phase_in in H as [H|(m & Hm & ->)].
  - unfold md_phase in H. apply in_app_or in H as [H|H]; [now left|].
    apply in_map_iff in H as (u & <- & Hu). right.
    destruct (md_link_loop_spec line _ _ _ Hu) as ((pre & post & E) & Hs & _).
    repeat split; [|exact Hs].
    exists (pre ++ "]("), post. cbn [o_url snd]. rewrite E, !append_assoc'. reflexivity.
  - right. destruct (finditer_from_spec line 0 m Hm) as [Hsub Hbm].
    destruct (strip_of_bare_match rust m Hbm) as [Hs (suffix & E)].
    repeat split; [|exact Hs].
    cbn [o_url snd]. eapply substring_of_trans; [|exact Hsub].
    exists "", suffix. exact E.
Qed.

Lemma in_enumerate1 {A} (l : list A) (n : nat) (x : A) :
  In (n, x) (enumerate1 l) -> 1 <= n /\ nth_error l (n - 1) = Some x.
Proof.
  unfold enumerate1. generalize 1 as a. induction l as [|y l IH]; intros a H; [contradiction|].
  cbn [List.length seq combine] in H. destruct H as [H|H].
  - inversion H. subst. replace (n - n) with 0 by lia. split; [lia | reflexivity].
  - apply IH in H as [Hle Hn]. split; [lia|].
    replace (n - a) with (S (n - S a)) by lia. exact Hn.
Qed.

Lemma fold_step_in (step : list Occurrence -> nat * string -> list Occurrence)
    (Q : nat * string -> Occurrence -> Prop) :
  (forall urls numbered o, In o (step urls numbered) -> In o urls \/ Q numbered o) ->
  forall numbered urls o,
    In o (fold_left step numbered urls) ->
    In o urls \/ exists nl, In nl numbered /\ Q nl o.
Proof.
  intros Hstep. induction numbered as [|nl numbered IH]; intros urls o H; [now left|].
  cbn [fold_left] in H. apply IH in H as [H|(nl' & Hin & HQ)].
  - apply Hstep in H as [H|H]; [now left|]. right. exists nl. split; [now left | exact H].
  - right. exists nl'. split; [now right | exact HQ].
Qed.

Lemma extract_markdown_in (file_path : string) (read_text : exn + string) (o : Occurrence) :
  In o (extract_urls_from_markdown file_path read_text) ->
  exists content nl,
    read_text = inr content /\ In nl (enumerate1 (splitlines content)) /\
    recorded_at file_path nl o.
Proof.
  unfold extract_urls_from_markdown. destruct read_text as [e|content]; [contradiction|].
  intros H. exists content.
  apply (fold_step_in _ (recorded_at file_path)) in H.
  - destruct H as [[]|(nl & Hin & HQ)]. exists nl. auto.
  - intros urls [line_no line] o' H'. apply (scan_line_in false) in H'. exact H'.
Qed.

Lemma extract_rust_in (file_path : string) (read_text : exn + string) (o : Occurrence) :
  In o (extract_urls_from_rust file_path read_text) ->
  exists content nl,
    read_text = inr content /\ In nl (enumerate1 (splitlines content)) /\
    DOCSTRING_match (snd nl) = true /\ recorded_at file_path nl o.
Proof.
  unfold extract_urls_from_rust. destruct read_text as [e|content]; [contradiction|].
  intros H. exists content.
  apply (fold_step_in _ (fun nl o => DOCSTRING_match (snd nl) = true /\ recorded_at file_path nl o))
    in H.
  - destruct H as [[]|(nl & Hin & HQ)]. exists nl. tauto.
  - intros urls [line_no line] o' H'. cbn [snd] in *.
    destruct (DOCSTRING_match line) eqn:E; [|now left].
    apply (scan_line_in true) in H'. destruct H' as [H'|H']; [now left | right; auto].
Qed.

Lemma in_enumerate1_line {A} (l : list A) (n : nat) (x : A) :
  In (n, x) (enumerate1 l) -> In x l.
Proof. intros H. apply in_enumerate1 in H as [_ H]. eapply nth_error_In; eassumption. Qed.

Lemma extract_urls_from_markdown_occurrence_aux
    (file_path : string) (read_text : exn + string) (o : Occurrence) :
  In o (extract_urls_from_markdown file_path read_text) ->
  exists content line,
    read_text = inr content /\ In line (splitlines content) /\
    substring_of (o_url o) line /\ has_http_scheme (o_url o).
Proof.
  intros H. apply extract_markdown_in in H as (content & [n line] & E & Hin & _ & _ & Hs & Hh).
  exists content, line. apply in_enumerate1_line in Hin. auto.
Qed.

Lemma extract_urls_from_rust_occurrence_aux
    (file_path : string) (read_text : exn + string) (o : Occurrence) :
  In o (extract_urls_from_rust file_path read_text) ->
  exists content line,
    read_text = inr content /\ In line (splitlines content) /\
    DOCSTRING_match line = true /\
    substring_of (o_url o) line /\ has_http_scheme (o_url o).
Proof.
  intros H.
  apply extract_rust_in in H as (content & [n line] & E & Hin & Hd & _ & _ & Hs & Hh).
  exists content, line. apply in_enumerate1_line in Hin. auto.
Qed.

(** X9.  Every occurrence [extract_urls_from_markdown] returns carries
    the path of the file, a line number between 1 and the number of lines
    of the file, and a URL that starts with [http://] or [https://] and
    is a substring of that very line.  A file that could not be read
    gives no occurrence. *)
Theorem extract_urls_from_markdown_occurrence
    (file_path : string) (read_text : exn + string) (o : Occurrence) :
  In o (extract_urls_from_markdown file_path read_text) ->
  exists content line,
    read_text = inr content /\
    o_file o = file_path /\
    1 <= o_line o <= List.length (splitlines content) /\
    nth_error (splitlines content) (o_line o - 1) = Some line /\
    substring_of (o_url o) line /\
    has_http_scheme (o_url o).
Proof.
  intros H. apply extract_markdown_in in H as (content & [n line] & E & Hin & Hf & Hl & Hs & Hh).
  cbn [fst snd] in *. apply in_enumerate1 in Hin as [Hle Hn]. subst n.
  exists content, line. repeat (split; [assumption|]).
  split; [|auto]. split; [exact Hle|].
  assert (o_line o - 1 < List.length (splitlines content))
    by (apply nth_error_Some; congruence).
  lia.
Qed.

Lemma extract_urls_from_markdown_occurrence_witness :
  exists content line,
    inr ("# Title" ++ String newline "See <https://docs.rs/syn>.") = @inr exn string content /\
    o_file ("README.md", 2, "https://docs.rs/syn") = "README.md" /\
    1 <= o_line ("README.md", 2, "https://docs.rs/syn") <= List.length (splitlines content) /\
    nth_error (splitlines content) (o_line ("README.md", 2, "https://docs.rs/syn") - 1)
    = Some line /\
    substring_of (o_url ("README.md", 2, "https://docs.rs/syn")) line /\
    has_http_scheme (o_url ("README.md", 2, "https://docs.rs/syn")).
Proof.
  apply (extract_urls_from_markdown_occurrence "README.md"
           (inr ("# Title" ++ String newline "See <https://docs.rs/syn>."))
           ("README.md", 2, "https://docs.rs/syn")).
  vm_compute. left. reflexivity.
Defined.

(** X10.  Every occurrence [extract_urls_from_rust] returns carries the
    path of the file and the number of a line of the file that is a
    docstring line (white space, then three slashes or two slashes and an
    exclamation mark), and its URL starts with [http://] or [https://]
    and is a substring of that line: other lines are never scanned. *)
Theorem extract_urls_from_rust_occurrence
    (file_path : string) (read_text : exn + string) (o : Occurrence) :
  In o (extract_urls_from_rust file_path read_text) ->
  exists content line,
    read_text = inr content /\
    o_file o = file_path /\
    1 <= o_line o <= List.length (splitlines content) /\
    nth_error (splitlines content) (o_line o - 1) = Some line /\
    DOCSTRING_match line = true /\
    substring_of (o_url o) line /\
    has_http_scheme (o_url o).
Proof.
  intros H.
  apply extract_rust_in in H as (content & [n line] & E & Hin & Hd & Hf & Hl & Hs & Hh).
  cbn [fst snd] in *. apply in_enumerate1 in Hin as [Hle Hn]. subst n.
  exists content, line. repeat (split; [assumption|]).
  split; [|auto]. split; [exact Hle|].
  assert (o_line o - 1 < List.length (splitlines content))
    by (apply nth_error_Some; congruence).
  lia.
Qed.

Lemma extract_urls_from_rust_occurrence_witness :
  exists content line,
    inr ("fn f() {} // https://a.org/" ++ String newline "  //! Docs: https://docs.rs/syn.")
    = @inr exn string content /\
    o_file ("src/lib.rs", 2, "https://docs.rs/syn") = "src/lib.rs" /\
    1 <= o_line ("src/lib.rs", 2, "https://docs.rs/syn") <= List.length (splitlines content) /\
    nth_error (splitlines content) (o_line ("src/lib.rs", 2, "https://docs.rs/syn") - 1)
    = Some line /\
    DOCSTRING_match line = true /\
    substring_of (o_url ("src/lib.rs", 2, "https://docs.rs/syn")) line /\
    has_http_scheme (o_url ("src/lib.rs", 2, "https://docs.rs/syn")).
Proof.
  apply (extract_urls_from_rust_occurrence "src/lib.rs"
           (inr ("fn f() {} // https://a.org/" ++ String newline "  //! Docs: https://docs.rs/syn."))
           ("src/lib.rs", 2, "https://docs.rs/syn")).
  vm_compute. left. reflexivity.
Defined.

Lemma md_links_first_link_witness :
  exists rest,
    md_links ("See [the wiki" ++ "](" ++ "https://en.wikipedia.org/wiki/Rust_(language)"
              ++ String ")" " and [more](http://b.org/).")
    = "https://en.wikipedia.org/wiki/Rust_(language)" :: rest.
Proof.
  apply (md_links_first_link "See [the wiki" "https://en.wikipedia.org/wiki/Rust_(language)"
           " and [more](http://b.org/).").
  - reflexivity.
  - right. reflexivity.
  - reflexivity.
  - reflexivity.
Defined.

(** X14.  Every URL that [main] hands to [validate_url] starts with
    [http://] or [https://] and is a substring of a line of one of the
    files that could be read; for a Rust file, of a docstring line. *)
Theorem validated_urls_come_from_lines
    (md_files rs_files : list (string * (exn + string))) (url : string) :
  In url (unique_urls_of (collect_all_urls md_files rs_files)) ->
  has_http_scheme url /\
  exists file_path content line,
    (In (file_path, inr content) md_files \/
     (In (file_path, inr content) rs_files /\ DOCSTRING_match line = true)) /\
    In line (splitlines content) /\
    substring_of url line.
Proof.
  intros H. apply unique_urls_in in H. apply in_map_iff in H as (o & <- & Ho).
  unfold collect_all_urls in Ho. apply in_app_or in Ho as [Ho|Ho];
    apply in_flat_map in Ho as ([fp rt] & Hf & Ho); cbn [fst snd] in Ho.
  - apply extract_urls_from_markdown_occurrence_aux in Ho
      as (content & line & -> & Hin & Hs & Hh).
    split; [exact Hh|]. exists fp, content, line. auto.
  - apply extract_urls_from_rust_occurrence_aux in Ho
      as (content & line & -> & Hin & Hd & Hs & Hh).
    split; [exact Hh|]. exists fp, content, line. auto.
Qed.

Lemma validated_urls_come_from_lines_witness :
  has_http_scheme "https://docs.rs/syn" /\
  exists file_path content line,
    (In (file_path, inr content) [("README.md", @inr exn string "See <https://docs.rs/syn>.")] \/
     (In (file_path, inr content) [("src/lib.rs", @inl exn string (PyExc "OSError" "denied"))] /\
      DOCSTRING_match line = true)) /\
    In line (splitlines content) /\
    substring_of "https://docs.rs/syn" line.
Proof.
  apply (validated_urls_come_from_lines
           [("README.md", inr "See <https://docs.rs/syn>.")]
           [("src/lib.rs", inl (PyExc "OSError" "denied"))]
           "https://docs.rs/syn").
  vm_compute. left. reflexivity.
Defined.

(** ** Grouping loses nothing *)

Lemma ungroup_append (d : UrlLocations) (k : string) (v : Location) :
  Permutation (ungroup (dd_append d k v)) ((fst v, snd v, k) :: ungroup d).
Proof.
  unfold ungroup. induction d as [|[k0 vs] d IH].
  - cbn. reflexivity.
  - cbn [dd_append]. destruct (String.eqb_spec k0 k) as [->|Hk].
    + cbn [flat_map fst snd]. rewrite map_app. cbn [map].
      rewrite <- app_assoc. cbn [app]. symmetry. apply Permutation_middle.
    + cbn [flat_map fst snd]. rewrite IH. symmetry. apply Permutation_middle.
Qed.

Lemma ungroup_fold (all_urls : list Occurrence) :
  forall d,
    Permutation
      (ungroup (fold_left (fun d o => dd_append d (o_url o) (o_file o, o_line o)) all_urls d))
      (ungroup d ++ all_urls).
Proof.
  induction all_urls as [|o all_urls IH]; intros d.
  - cbn [fold_left]. now rewrite app_nil_r.
  - cbn [fold_left]. rewrite IH, ungroup_append.
    destruct o as [[f l] u]. cbn [o_url o_file o_line fst snd app].
    apply Permutation_middle.
Qed.

(** X15.  Grouping by URL loses and invents nothing: the locations kept
    under the keys of [url_locations], each with its key, are the
    extracted occurrences again, up to their order; so the lengths of the
    location lists add up to the number of occurrences. *)
Theorem url_locations_complete (all_urls : list Occurrence) :
  Permutation (ungroup (url_locations_of all_urls)) all_urls /\
  list_sum (map (fun kv => List.length (snd kv)) (url_locations_of all_urls))
  = List.length all_urls.
Proof.
  assert (Hp : Permutation (ungroup (url_locations_of all_urls)) all_urls).
  { unfold url_locations_of. rewrite ungroup_fold. reflexivity. }
  split; [exact Hp|].
  rewrite <- (Permutation_length Hp). clear Hp. unfold ungroup.
  induction (url_locations_of all_urls) as [|kv d IH]; [reflexivity|].
  cbn [map flat_map]. rewrite length_app, length_map.
  change (list_sum (List.length (snd kv) :: ?l)) with (List.length (snd kv) + list_sum l).
  f_equal. exact IH.
Qed.

(** ** The printed report *)

Lemma count_loop_total (rs : list Result) :
  forall c,
    fail_count (fold_left count_result rs c) + pass_count (fold_left count_result rs c)
    + skip_count (fold_left count_result rs c)
    = fail_count c + pass_count c + skip_count c + List.length rs.
Proof.
  induction rs as [|r rs IH]; intros c; [cbn; lia|].
  cbn [fold_left List.length]. rewrite IH. unfold count_result.
  destruct (r_status r); cbn [fail_count pass_count skip_count]; lia.
Qed.

(** The whole of what [main] prints and returns, from the results on. *)
Lemma main_report_layout (all_urls : list Occurrence) (results : list Result) :
  main_report all_urls results
  = let c := fold_left count_result (sort_results results)
               {| fail_count := 0; pass_count := 0; skip_count := 0 |} in
    ((PrintResultsHeader
        :: flat_map (result_lines (url_locations_of all_urls)) (sort_results results)
        ++ (if (0 <? pass_count c)%nat then [PrintPassed (pass_count c)] else [])
        ++ (if (0 <? skip_count c)%nat then [PrintSkipped (skip_count c)] else [])
        ++ [PrintSummary (List.length all_urls) (List.length (unique_urls_of all_urls))
              (pass_count c) (fail_count c) (skip_count c);
            if (0 <? fail_count c)%nat then PrintFailed (fail_count c) else PrintAllValid])%list,
     if (0 <? fail_count c)%nat then 1%Z else 0%Z).
Proof.
  unfold main_report. rewrite report_loop. cbv zeta.
  set (c := fold_left count_result (sort_results results) _).
  unfold unique_urls_of.
  destruct (0 <? fail_count c)%nat; f_equal; cbn [app];
    rewrite <- ?app_assoc; cbn [app]; rewrite <- ?app_assoc; reflexivity.
Qed.

(** X16.  In a run of [main] that reaches the report, the summary line
    gives the number of occurrences and the number of unique URLs, and
    its counts of passed, failed and skipped URLs add up to the number of
    unique URLs: every unique URL is counted once, under one status.  The
    line after it and the exit code go by the count of failures. *)
Theorem main_run_summary (urlparse : string -> exn + ParseResult)
    (sub : list string -> nat -> run_outcome) (all_urls : list Occurrence)
    (outcome : list out_line * Z) :
  main_run urlparse sub all_urls (inr outcome) ->
  exists before passed failed skipped last,
    printed outcome
    = (before ++ [PrintSummary (List.length all_urls)
                    (List.length (unique_urls_of all_urls)) passed failed skipped;
                  last])%list /\
    passed + failed + skipped = List.length (unique_urls_of all_urls) /\
    ((failed = 0 /\ last = PrintAllValid /\ exit_code outcome = 0%Z) \/
     (0 < failed /\ last = PrintFailed failed /\ exit_code outcome = 1%Z)).
Proof.
  intros H. inversion H as [completed results Hp Hc E|]; subst.
  pose proof (main_results_urls _ _ _ _ _ Hp Hc) as Hu.
  apply Permutation_length in Hu. rewrite length_map in Hu.
  rewrite main_report_layout. cbv zeta.
  set (c := fold_left count_result (sort_results results) _).
  pose proof (count_loop_total (sort_results results)
                {| fail_count := 0; pass_count := 0; skip_count := 0 |}) as Ht.
  fold c in Ht. cbn [fail_count pass_count skip_count] in Ht.
  rewrite (Permutation_length (sort_results_perm results)) in Ht.
  exists (PrintResultsHeader
            :: flat_map (result_lines (url_locations_of all_urls)) (sort_results results)
            ++ (if (0 <? pass_count c)%nat then [PrintPassed (pass_count c)] else [])
            ++ (if (0 <? skip_count c)%nat then [PrintSkipped (skip_count c)] else []))%list,
    (pass_count c), (fail_count c), (skip_count c),
    (if (0 <? fail_count c)%nat then PrintFailed (fail_count c) else PrintAllValid).
  cbn [printed exit_code fst snd]. split.
  - cbn [app]. rewrite <- !app_assoc. reflexivity.
  - split; [lia|].
    destruct (0 <? fail_count c)%nat eqn:E.
    + apply Nat.ltb_lt in E. right. auto.
    + apply Nat.ltb_ge in E. left. split; [lia | auto].
Qed.

Lemma printed_fail_urls_app (l1 l2 : list out_line) :
  printed_fail_urls (l1 ++ l2) = (printed_fail_urls l1 ++ printed_fail_urls l2)%list.
Proof.
  induction l1 as [|x l1 IH]; [reflexivity|].
  destruct x; cbn [app printed_fail_urls]; now rewrite IH.
Qed.

Lemma printed_fail_urls_locations (locs : list Location) :
  printed_fail_urls (map (fun loc => PrintLocation (fst loc) (snd loc)) locs) = [].
Proof. induction locs as [|x locs IH]; [reflexivity | exact IH]. Qed.

Lemma printed_fail_urls_results (d : UrlLocations) (rs : list Result) :
  printed_fail_urls (flat_map (result_lines d) rs) = map r_url (filter is_fail rs).
Proof.
  induction rs as [|r rs IH]; [reflexivity|].
  cbn [flat_map filter]. rewrite printed_fail_urls_app, IH.
  unfold result_lines, is_fail. destruct (r_status r); cbn [status_eqb]; try reflexivity.
  unfold fail_lines. cbn [app printed_fail_urls].
  rewrite !printed_fail_urls_app, printed_fail_urls_locations.
  destruct (3 <? _)%nat; reflexivity.
Qed.

Lemma fail_urls_sorted (l : list Result) :
  StronglySorted result_le l ->
  StronglySorted (fun a b => String.leb a b = true) (map r_url (filter is_fail l)).
Proof.
  induction 1 as [|a l Hs IH Hall]; [constructor|].
  cbn [filter]. destruct (is_fail a) eqn:Ea; [|exact IH].
  cbn [map]. constructor; [exact IH|].
  rewrite Forall_forall in *. intros u Hu.
  apply in_map_iff in Hu as (b & <- & Hb). apply filter_In in Hb as [Hb Eb].
  specialize (Hall b Hb). unfold result_le, key_le, sort_key in Hall.
  unfold is_fail in Ea, Eb.
  destruct (r_status a); try discriminate. destruct (r_status b); try discriminate.
  cbn in Hall. exact Hall.
Qed.

Lemma filter_perm {A} (f : A -> bool) (l l' : list A) :
  Permutation l l' -> Permutation (filter f l) (filter f l').
Proof.
  induction 1 as [|x l l' Hp IH|x y l|l l' l'' H1 IH1 H2 IH2]; cbn [filter].
  - constructor.
  - destruct (f x); [now constructor | exact IH].
  - destruct (f x), (f y); try reflexivity. apply perm_swap.
  - etransitivity; eassumption.
Qed.

(** X17.  The failure blocks of the report come one for each result
    classified FAIL and for no other result, in increasing order of the
    URL strings, whatever the order in which the results were
    collected. *)
Theorem report_lists_failures_in_url_order (all_urls : list Occurrence) (results : list Result) :
  printed_fail_urls (printed (main_report all_urls results))
  = map r_url (filter is_fail (sort_results results)) /\
  StronglySorted (fun a b => String.leb a b = true)
    (printed_fail_urls (printed (main_report all_urls results))) /\
  Permutation (printed_fail_urls (printed (main_report all_urls results)))
    (map r_url (filter is_fail results)).
Proof.
  assert (E : printed_fail_urls (printed (main_report all_urls results))
              = map r_url (filter is_fail (sort_results results))).
  { rewrite main_report_layout. cbv zeta. cbn [printed fst].
    set (c := fold_left count_result (sort_results results) _).
    cbn [printed_fail_urls]. rewrite !printed_fail_urls_app, printed_fail_urls_results.
    destruct (0 <? pass_count c)%nat; destruct (0 <? skip_count c)%nat;
      destruct (0 <? fail_count c)%nat; cbn [printed_fail_urls app];
      now rewrite app_nil_r. }
  rewrite E. split; [reflexivity|]. split.
  - apply fail_urls_sorted, sort_results_sorted.
  - apply Permutation_map, filter_perm, sort_results_perm.
Qed.

(** ** Runs of [main], continued *)

Lemma sample_run :
  main_run urlparse_py sample_sub sample_occurrences
    (inr (main_report sample_occurrences sample_results)).
Proof.
  apply (main_exits _ _ _ (map inr sample_results)).
  - vm_compute. apply perm_swap.
  - reflexivity.
Defined.

Lemma main_run_summary_witness :
  exists before passed failed skipped last,
    printed (main_report sample_occurrences sample_results)
    = (before ++ [PrintSummary (List.length sample_occurrences)
                    (List.length (unique_urls_of sample_occurrences)) passed failed skipped;
                  last])%list /\
    passed + failed + skipped = List.length (unique_urls_of sample_occurrences) /\
    ((failed = 0 /\ last = PrintAllValid /\
      exit_code (main_report sample_occurrences sample_results) = 0%Z) \/
     (0 < failed /\ last = PrintFailed failed /\
      exit_code (main_report sample_occurrences sample_results) = 1%Z)).
Proof.
  exact (main_run_summary urlparse_py sample_sub sample_occurrences
           (main_report sample_occurrences sample_results) sample_run).
Defined.

Lemma main_run_exit_code_witness :
  exit_code (main_report sample_occurrences sample_results) = 1%Z <->
  exists url message,
    In url (unique_urls_of sample_occurrences) /\
    run_py sample_sub (validate_url urlparse_py url 10) = inr (url, FAIL, message).
Proof.
  exact (main_run_exit_code urlparse_py sample_sub sample_occurrences
           (main_report sample_occurrences sample_results) sample_run).
Defined.

Lemma main_run_deterministic_witness :
  main_report sample_occurrences sample_results
  = main_report sample_occurrences (rev sample_results).
Proof.
  apply (main_run_deterministic urlparse_py sample_sub sample_occurrences).
  - exact sample_run.
  - apply (main_exits _ _ _ (map inr (rev sample_results))); reflexivity.
Defined.

Lemma collect_results_raised (completed : list (exn + Result)) (e : exn) :
  collect_results completed = inl e -> In (inl e) completed.
Proof.
  induction completed as [|[e'|r] completed IH]; cbn [collect_results]; intros H.
  - discriminate.
  - inversion H. now left.
  - destruct (collect_results completed) as [e''|rs]; [|discriminate].
    inversion H. subst. right. now apply IH.
Qed.

(** X18.  Every start of [main] has a run.  If each check of a unique
    URL returns, every run reaches the report.  If the check of one
    unique URL raises, no run reaches the report, in whatever order the
    checks complete: every run ends with an exception raised by the check
    of a unique URL, and nothing of the report is printed. *)
Theorem main_run_reports_or_aborts (urlparse : string -> exn + ParseResult)
    (sub : list string -> nat -> run_outcome) (all_urls : list Occurrence) :
  (exists outcome, main_run urlparse sub all_urls outcome) /\
  ((forall url, In url (unique_urls_of all_urls) ->
                exists r, run_py sub (validate_url urlparse url 10) = inr r) ->
   forall outcome, main_run urlparse sub all_urls outcome ->
                   exists report, outcome = inr report) /\
  (forall url e,
      In url (unique_urls_of all_urls) ->
      run_py sub (validate_url urlparse url 10) = inl e ->
      forall outcome,
        main_run urlparse sub all_urls outcome ->
        exists url' e',
          In url' (unique_urls_of all_urls) /\
          run_py sub (validate_url urlparse url' 10) = inl e' /\
          outcome = inl e').
Proof.
  set (g := fun url => run_py sub (validate_url urlparse url 10)).
  assert (Hmap : map (run_py sub) (submitted urlparse all_urls)
                 = map g (unique_urls_of all_urls))
    by (unfold submitted; now rewrite map_map).
  assert (Hraised : forall completed e,
             Permutation (map (run_py sub) (submitted urlparse all_urls)) completed ->
             collect_results completed = inl e ->
             exists url', In url' (unique_urls_of all_urls) /\ g url' = inl e).
  { intros completed e Hp Hc. apply collect_results_raised in Hc.
    apply (Permutation_in _ (Permutation_sym Hp)) in Hc.
    rewrite Hmap in Hc. apply in_map_iff in Hc as (u & Hu & Hin). eauto. }
  split; [|split].
  - destruct (collect_results (map (run_py sub) (submitted urlparse all_urls))) as [e|rs] eqn:E.
    + exists (inl e). eapply main_raises; [reflexivity | exact E].
    + exists (inr (main_report all_urls rs)). eapply main_exits; [reflexivity | exact E].
  - intros Hall outcome H. inversion H as [c rs Hp Hc|c e Hp Hc]; subst; [eauto|].
    destruct (Hraised c e Hp Hc) as (u & Hu & Hg).
    destruct (Hall u Hu) as [r Hr]. fold (g u) in Hr. congruence.
  - intros url e Hu Hg outcome H. inversion H as [c rs Hp Hc|c e' Hp Hc]; subst.
    + exfalso. apply collect_results_all in Hc. subst c.
      assert (Hin : In (g url) (map inr rs)).
      { eapply Permutation_in; [exact Hp|]. rewrite Hmap. now apply in_map. }
      fold (g url) in Hg. rewrite Hg in Hin.
      apply in_map_iff in Hin as (r & Hr & _). discriminate.
    + destruct (Hraised c e' Hp Hc) as (u' & Hu' & Hg'). exists u', e'. auto.
Qed.

(** ** Which files and lines are scanned *)

Lemma str_mem_iff (x : string) (parts : list string) : str_mem x parts = true <-> In x parts.
Proof.
  unfold str_mem. rewrite existsb_exists. split.
  - intros (y & Hy & E). apply String.eqb_eq in E. now subst.
  - intros H. exists x. split; [exact H | apply String.eqb_refl].
Qed.

Lemma endswith_iff (suffix s : string) :
  endswith suffix s = true <-> exists pre, s = pre ++ suffix.
Proof.
  unfold endswith. rewrite andb_true_iff, Nat.leb_le, String.eqb_eq. split.
  - intros [_ E]. remember (String.length s - String.length suffix) as n.
    exists (take n s). rewrite <- E. apply take_drop.
  - intros [pre ->]. rewrite length_append'. split; [lia|].
    replace (String.length pre + String.length suffix - String.length suffix)
      with (String.length pre) by lia.
    apply drop_append_length.
Qed.

Lemma no_element_nil {A} (l : list A) : (forall x, ~ In x l) -> l = [].
Proof. destruct l as [|x l]; [reflexivity|]. intros H. exfalso. apply (H x). now left. Qed.

(** X19.  [find_markdown_files] yields exactly the markdown paths found
    under the root none of whose parts, those of the root included, is
    one of the eight excluded names.  So when the root itself lies below
    a directory with an excluded name, no markdown file is yielded. *)
Theorem find_markdown_files_spec (root : list string) (rglob : list (list string)) :
  (forall md_file,
      In md_file (find_markdown_files root rglob) <->
      exists rel, In rel rglob /\ md_file = (root ++ rel)%list /\
                  forall part, In part md_file -> ~ In part excludes) /\
  ((exists part, In part root /\ In part excludes) ->
   find_markdown_files root rglob = []).
Proof.
  assert (Hin : forall md_file,
             In md_file (find_markdown_files root rglob) <->
             exists rel, In rel rglob /\ md_file = (root ++ rel)%list /\
                         forall part, In part md_file -> ~ In part excludes).
  { intros md_file. unfold find_markdown_files.
    rewrite filter_In, in_map_iff, negb_true_iff. split.
    - intros [(rel & <- & Hrel) Hex]. exists rel. split; [exact Hrel|]. split; [reflexivity|].
      intros part Hpart Hbad.
      assert (existsb (fun part => str_mem part excludes) (root ++ rel) = true)
        by (apply existsb_exists; exists part; split; [exact Hpart | now apply str_mem_iff]).
      congruence.
    - intros (rel & Hrel & -> & Hok). split; [eauto|].
      destruct (existsb _ (root ++ rel)) eqn:E; [|reflexivity].
      apply existsb_exists in E as (part & Hpart & Hbad).
      apply str_mem_iff in Hbad. exfalso. exact (Hok part Hpart Hbad). }
  split; [exact Hin|].
  intros (part & Hroot & Hbad). apply no_element_nil. intros md_file H.
  apply Hin in H as (rel & _ & -> & Hok).
  apply (Hok part); [apply in_or_app; now left | exact Hbad].
Qed.

(** X20.  [find_rust_files] yields nothing when the root has no [src]
    directory; otherwise it yields exactly the Rust paths found under
    [src] whose file name does not end in [_test.rs] and none of whose
    parts, those of the root included, is [tests]. *)
Theorem find_rust_files_spec (root : list string) (src_exists : bool)
    (rglob : list (list string)) :
  (forall rs_file,
      In rs_file (find_rust_files root src_exists rglob) <->
      src_exists = true /\
      exists rel, In rel rglob /\ rs_file = (root ++ "src" :: rel)%list /\
                  (forall pre, last rs_file EmptyString <> pre ++ "_test.rs") /\
                  ~ In "tests" rs_file) /\
  (src_exists = false \/ In "tests" root -> find_rust_files root src_exists rglob = []).
Proof.
  assert (Hin : forall rs_file,
             In rs_file (find_rust_files root src_exists rglob) <->
             src_exists = true /\
             exists rel, In rel rglob /\ rs_file = (root ++ "src" :: rel)%list /\
                         (forall pre, last rs_file EmptyString <> pre ++ "_test.rs") /\
                         ~ In "tests" rs_file).
  { intros rs_file. unfold find_rust_files. destruct src_exists; cbn [negb].
    - rewrite filter_In, in_map_iff, negb_true_iff, orb_false_iff. split.
      + intros [(rel & <- & Hrel) [Hname Htests]]. split; [reflexivity|].
        exists rel. split; [exact Hrel|]. split; [reflexivity|]. split.
        * intros pre E.
          assert (endswith "_test.rs" (last (root ++ "src" :: rel) "") = true)
            by (apply endswith_iff; eauto).
          congruence.
        * intros H. apply str_mem_iff in H. congruence.
      + intros [_ (rel & Hrel & -> & Hname & Htests)]. split; [eauto|]. split.
        * destruct (endswith "_test.rs" (last (root ++ "src" :: rel) "")) eqn:E; [|reflexivity].
          apply endswith_iff in E as [pre E]. exfalso. exact (Hname pre E).
        * destruct (str_mem "tests" (root ++ "src" :: rel)) eqn:E; [|reflexivity].
          apply str_mem_iff in E. contradiction.
    - split; [contradiction | intros [H _]; discriminate]. }
  split; [exact Hin|].
  intros H. apply no_element_nil. intros rs_file Hrs.
  apply Hin in Hrs as [Hsrc (rel & _ & -> & _ & Htests)].
  destruct H as [H|H]; [congruence|].
  apply Htests, in_or_app. now left.
Qed.

Lemma lstrip_by_split (p : ascii -> bool) (s : string) :
  exists ws, s = ws ++ lstrip_by p s /\ all_chars p ws = true.
Proof.
  induction s as [|c s (ws & E & H)]; [now exists ""|].
  cbn [lstrip_by]. destruct (p c) eqn:Hc.
  - exists (String c ws). cbn [append all_chars]. rewrite Hc, H, <- E. auto.
  - now exists "".
Qed.

(** X21.  A line counts as a docstring line exactly when it consists of
    white space, possibly none, followed by three slashes or by two
    slashes and an exclamation mark, followed by anything. *)
Theorem DOCSTRING_match_iff (line : string) :
  DOCSTRING_match line = true <->
  exists indent marker rest,
    line = indent ++ marker ++ rest /\
    all_chars is_space indent = true /\
    (marker = "///" \/ marker = "//!").
Proof.
  unfold DOCSTRING_match. split.
  - intros H. destruct (lstrip_by_split is_space line) as (ws & E & Hws).
    apply orb_true_iff in H as [H|H]; apply startswith_iff in H as [rest Hr];
      rewrite Hr in E; [exists ws, "///", rest | exists ws, "//!", rest]; auto.
  - intros (indent & marker & rest & -> & Hws & Hm).
    rewrite lstrip_by_append, Hws.
    destruct Hm as [->| ->]; reflexivity.
Qed.

(** ** The [curl] calls of a run *)

(** X24.  Every subprocess that a run of [main] starts is [curl] with
    the fixed options (silent with errors shown, 5 seconds to connect,
    10 seconds in all, output discarded, the status code written out) and
    the URL as its last argument, with a subprocess timeout of 12
    seconds.  That last argument starts with [http://] or [https://], so
    [curl] never reads it as an option; and the call is followed by the
    classification of its outcome and by no other call. *)
Theorem curl_call_arguments
    (md_files rs_files : list (string * (exn + string)))
    (urlparse : string -> exn + ParseResult)
    (url : string) (argv : list string) (timeout : nat) (k : run_outcome -> py Result) :
  In url (unique_urls_of (collect_all_urls md_files rs_files)) ->
  validate_url urlparse url 10 = SubprocessRun argv timeout k ->
  argv = ["curl"; "-sS"; "--connect-timeout"; "5"; "--max-time"; "10";
          "-o"; "/dev/null"; "-w"; "%{http_code}"; url] /\
  timeout = 12 /\
  has_http_scheme (last argv EmptyString) /\
  forall o, k o = Return (classify url 10 o).
Proof.
  intros Hin H.
  assert (Hscheme : has_http_scheme url)
    by (unfold collect_all_urls in Hin; apply unique_urls_in in Hin;
        apply in_map_iff in Hin as (o & <- & Ho);
        apply in_app_or in Ho as [Ho|Ho];
        apply in_flat_map in Ho as ([fp rt] & _ & Ho); cbn [fst snd] in Ho;
        [apply extract_urls_from_markdown_occurrence_aux in Ho
         | apply extract_urls_from_rust_occurrence_aux in Ho];
        destruct Ho as (c & l & Ho); tauto).
  unfold validate_url in H.
  destruct (any_in placeholders url); [discriminate|].
  destruct (urlparse url) as [e|parsed]; [discriminate|].
  destruct (String.eqb (netloc parsed) ""); [discriminate|].
  destruct (any_in allowlist_patterns url); [discriminate|].
  inversion H. subst. split; [reflexivity|]. split; [reflexivity|].
  split; [exact Hscheme|]. intros o. reflexivity.
Qed.

Lemma curl_call_arguments_witness :
  curl_argv "https://docs.rs/syn" 10
  = ["curl"; "-sS"; "--connect-timeout"; "5"; "--max-time"; "10";
     "-o"; "/dev/null"; "-w"; "%{http_code}"; "https://docs.rs/syn"] /\
  10 + 2 = 12 /\
  has_http_scheme (last (curl_argv "https://docs.rs/syn" 10) EmptyString) /\
  forall o, (fun o => Return (classify "https://docs.rs/syn" 10 o)) o
            = Return (classify "https://docs.rs/syn" 10 o).
Proof.
  apply (curl_call_arguments
           [("README.md", inr "See <https://docs.rs/syn>.")] []
           urlparse_py "https://docs.rs/syn").
  - vm_compute. left. reflexivity.
  - reflexivity.
Defined.

(** ** The order of appearance matters *)

Lemma substring_of_length (a b : string) :
  substring_of a b -> String.length a <= String.length b.
Proof. intros (pre & post & ->). rewrite !length_append'. lia. Qed.

Lemma substring_of_same_length (a b : string) :
  substring_of a b -> String.length a = String.length b -> a = b.
Proof.
  intros (pre & post & ->). rewrite !length_append'. intros H.
  destruct pre; [|cbn in H; lia]. destruct post; [|cbn in H; lia].
  cbn. now rewrite append_empty_r.
Qed.

(** X25.  Which bare URLs are recorded depends on their order.  Of two
    new URLs of which the first is a proper substring of the second, both
    are recorded when the shorter one comes first, and the longer one
    alone when it comes first: the shorter URL is then never validated. *)
Theorem bare_recording_depends_on_order
    (strip_url : string -> string) (file_path : string) (line_no : nat)
    (urls : list Occurrence) (m1 m2 : string) :
  covered (strip_url m1) urls = false ->
  covered (strip_url m2) urls = false ->
  substring_of (strip_url m1) (strip_url m2) ->
  strip_url m1 <> strip_url m2 ->
  fold_left (bare_step strip_url file_path line_no) [m1; m2] urls
  = (urls ++ [(file_path, line_no, strip_url m1); (file_path, line_no, strip_url m2)])%list /\
  fold_left (bare_step strip_url file_path line_no) [m2; m1] urls
  = (urls ++ [(file_path, line_no, strip_url m2)])%list.
Proof.
  intros H1 H2 Hsub Hne.
  assert (Hnot : str_in (strip_url m2) (strip_url m1) = false).
  { destruct (str_in (strip_url m2) (strip_url m1)) eqn:E; [|reflexivity].
    apply str_in_iff in E. exfalso. apply Hne.
    apply substring_of_same_length; [exact Hsub|].
    apply substring_of_length in Hsub, E. lia. }
  assert (Hyes : str_in (strip_url m1) (strip_url m2) = true) by now apply str_in_iff.
  cbn [fold_left]. unfold bare_step at 2 4. rewrite H1, H2. cbn [negb].
  unfold bare_step. rewrite !covered_app, H1, H2.
  unfold covered. cbn [existsb o_url snd orb]. rewrite Hnot, Hyes. cbn [orb negb].
  split; [now rewrite <- app_assoc | reflexivity].
Qed.

Lemma bare_recording_depends_on_order_witness :
  fold_left (bare_step md_strip "README.md" 1) ["https://a.org"; "https://a.org/docs"] []
  = ([] ++ [("README.md", 1, md_strip "https://a.org");
            ("README.md", 1, md_strip "https://a.org/docs")])%list /\
  fold_left (bare_step md_strip "README.md" 1) ["https://a.org/docs"; "https://a.org"] []
  = ([] ++ [("README.md", 1, md_strip "https://a.org/docs")])%list.
Proof.
  apply (bare_recording_depends_on_order md_strip "README.md" 1 []
           "https://a.org" "https://a.org/docs").
  - reflexivity.
  - reflexivity.
  - exists "", "/docs". reflexivity.
  - vm_compute. intros H. discriminate H.
Defined.

(** ** The exit status of the process *)

(** C1 fails on the code, by the defect of C6.  The README line with the
    IPv6 literal gives one URL, on which [validate_url] raises: whatever
    [curl] would do and in whatever order the checks complete, every run
    of [main] is left by that exception, so the process exits with status
    1, although no URL was classified FAIL: no check returned a result at
    all.  The claim asks for status 0 here. *)
Theorem exit_status_one_without_failure (sub : list string -> nat -> run_outcome) :
  (exists outcome,
      main_run urlparse_py sub
        (extract_urls_from_markdown "README.md"
           (inr "Listening on http://[::1]:8080/ by default")) outcome) /\
  (forall outcome,
      main_run urlparse_py sub
        (extract_urls_from_markdown "README.md"
           (inr "Listening on http://[::1]:8080/ by default")) outcome ->
      outcome = inl (PyExc "ValueError" "Invalid IPv6 URL") /\
      process_exit_status outcome = 1%Z) /\
  (forall url,
      In url (unique_urls_of
                (extract_urls_from_markdown "README.md"
                   (inr "Listening on http://[::1]:8080/ by default"))) ->
      forall r, run_py sub (validate_url urlparse_py url 10) <> inr r).
Proof.
  split; [|split].
  - exists (inl (PyExc "ValueError" "Invalid IPv6 URL")).
    apply (main_raises _ _ _ [inl (PyExc "ValueError" "Invalid IPv6 URL")]); reflexivity.
  - intros outcome H.
    assert (Hcompleted : forall completed,
               Permutation
                 (map (run_py sub)
                    (submitted urlparse_py
                       (extract_urls_from_markdown "README.md"
                          (inr "Listening on http://[::1]:8080/ by default"))))
                 completed ->
               completed = [inl (PyExc "ValueError" "Invalid IPv6 URL")]).
    { intros completed Hp.
      change (map (run_py sub) _) with [@inl exn Result (PyExc "ValueError" "Invalid IPv6 URL")] in Hp.
      now apply Permutation_length_1_inv in Hp. }
    inversion H as [completed results Hp Hc|completed e Hp Hc]; subst;
      apply Hcompleted in Hp; subst completed; cbn [collect_results] in Hc.
    + discriminate.
    + inversion Hc. split; reflexivity.
  - intros url Hin r.
    change (unique_urls_of _) with ["http://[::1"] in Hin.
    destruct Hin as [<-|[]]. cbn. discriminate.
Qed.

(** ** The sort is stable *)

Lemma key_eqb_eq (a b : nat * string) : key_eqb a b = true <-> a = b.
Proof.
  unfold key_eqb. destruct a as [n s], b as [n' s']. cbn [fst snd].
  rewrite andb_true_iff, Nat.eqb_eq, String.eqb_eq.
  split; [intros [-> ->]; reflexivity | intros H; inversion H; auto].
Qed.

Lemma key_le_refl (a : nat * string) : key_le a a = true.
Proof. destruct (key_le_total a a); assumption. Qed.

Lemma insert_result_filter (k : nat * string) (x : Result) (l : list Result) :
  filter (fun r => key_eqb (sort_key r) k) (insert_result x l)
  = filter (fun r => key_eqb (sort_key r) k) (x :: l).
Proof.
  induction l as [|y l IH]; [reflexivity|].
  cbn [insert_result]. destruct (key_le (sort_key x) (sort_key y)) eqn:E; [reflexivity|].
  cbn [filter] in *. rewrite IH.
  destruct (key_eqb (sort_key x) k) eqn:Ex; destruct (key_eqb (sort_key y) k) eqn:Ey;
    try reflexivity.
  apply key_eqb_eq in Ex, Ey. rewrite Ex, Ey, key_le_refl in E. discriminate.
Qed.

(** The results of one key come out of the sort in the order they went in. *)
Lemma sort_results_stable (k : nat * string) (l : list Result) :
  filter (fun r => key_eqb (sort_key r) k) (sort_results l)
  = filter (fun r => key_eqb (sort_key r) k) l.
Proof.
  induction l as [|x l IH]; [reflexivity|].
  cbn [sort_results]. rewrite insert_result_filter. cbn [filter]. now rewrite IH.
Qed.

Lemma swap_far {A} (l1 : list A) (x : A) (l2 : list A) (y : A) (l3 : list A) :
  Permutation (l1 ++ x :: l2 ++ y :: l3) (l1 ++ y :: l2 ++ x :: l3).
Proof.
  apply Permutation_app_head.
  transitivity (x :: y :: l2 ++ l3); [constructor; symmetry; apply Permutation_middle|].
  transitivity (y :: x :: l2 ++ l3); [apply perm_swap|].
  constructor. apply Permutation_middle.
Qed.

Lemma swap_changes_sort (l1 : list Result) (x : Result) (l2 : list Result) (y : Result)
    (l3 : list Result) :
  sort_key x = sort_key y -> x <> y ->
  sort_results (l1 ++ x :: l2 ++ y :: l3) <> sort_results (l1 ++ y :: l2 ++ x :: l3).
Proof.
  intros E Hne H.
  apply (f_equal (filter (fun r => key_eqb (sort_key r) (sort_key x)))) in H.
  rewrite !sort_results_stable, !filter_app in H. cbn [filter] in H.
  rewrite !filter_app in H. cbn [filter] in H.
  assert (Ex : key_eqb (sort_key x) (sort_key x) = true) by now apply key_eqb_eq.
  assert (Ey : key_eqb (sort_key y) (sort_key x) = true) by now apply key_eqb_eq.
  rewrite Ex, Ey in H. apply app_inv_head in H. inversion H. contradiction.
Qed.

Lemma result_eq_dec (a b : Result) : {a = b} + {a <> b}.
Proof.
  destruct a as [[u s] m], b as [[u' s'] m'].
  destruct (string_dec u u') as [->|Hu]; [|right; intros H; inversion H; contradiction].
  destruct (string_dec m m') as [->|Hm]; [|right; intros H; inversion H; contradiction].
  destruct s, s'; try (left; reflexivity); right; intros H; inversion H.
Qed.

(** X26.  The sorted list is the same for every order of the results
    exactly when the key decides the result in the list, that is when no
    two different results have the same status and URL: the sort by
    (status rank, URL) is stable, so two different results of one key
    come out in the order they went in. *)
Theorem sort_order_independent_iff (l : list Result) :
  (forall l', Permutation l l' -> sort_results l = sort_results l') <-> keys_determine l.
Proof.
  split.
  - intros H a b Ha Hb E. destruct (result_eq_dec a b) as [Eab|Hne]; [exact Eab|].
    exfalso. apply in_split in Ha as (p & q & ->).
    apply in_app_or in Hb as [Hb|[Hb|Hb]]; [| now apply Hne |].
    + apply in_split in Hb as (p1 & p2 & ->).
      rewrite <- app_assoc in H. cbn [app] in H.
      apply (swap_changes_sort p1 b p2 a q); [now symmetry | now intros ->|].
      apply H, swap_far.
    + apply in_split in Hb as (q1 & q2 & ->).
      apply (swap_changes_sort p a q1 b q2 E Hne). apply H, swap_far.
  - intros Hk l' Hp. now apply sort_results_unique_keys.
Qed.
